(** * Survey builder: the client scripts

    A shallow embedding of the browser scripts of the survey builder
    (static/admin_script.js in its two shapes, and static/survey_script.js)
    as programs in a state-and-exception monad over a small browser model.

    A handler runs against a [Browser] (network, dialogs, console, location)
    paired with the page it is attached to.  The network is an oracle: the
    n-th call of [fetch] receives the outcome [net n], so a handler may in
    principle call [fetch] any number of times and every statement below is
    quantified over every behaviour of the server.

    Modelling decisions, all of them about the browser and none about the
    scripts:
    - a handler runs to completion: an [await] is a sequence point, and the
      interleaving of two handlers between awaits is not represented;
    - a value is what [JSON.parse] can yield, or undefined; a number is a
      double that is an integer, [VNum n] being the double nearest to [n],
      and it prints as JavaScript prints it;
    - an input of the admin page and of the dashboard is a text input, whose
      value holds no line break: a string assigned to it loses them;
    - a string is the sequence of the bytes of its UTF-8 form;
    - [JSON.stringify] of a flat object of strings is kept as the mapping it
      denotes ([JsonBody]), not as text;
    - a survey form holds text, date, checkbox and select controls and a
      submit button, so that every entry of its form data is a string;
    - an element the script dereferences without a test is present in the
      page; an element the script tests against null is an [option]. *)

From stdpp Require Import base strings gmap list pretty.

Set Default Proof Using "Type".

(** ** JavaScript values *)

Module Js.

Local Unset Elimination Schemes.
Inductive value : Type :=
| VUndefined
| VNull
| VBool (b : bool)
| VNum (n : Z)
| VStr (s : string)
| VArr (items : list value)
| VObj (props : gmap string value).
Local Set Elimination Schemes.

Inductive exn : Type := TypeError | NetworkError | SyntaxError.

(** [!!v] of JavaScript, negated: ToBoolean. *)
Definition truthy (v : value) : bool :=
  match v with
  | VUndefined | VNull => false
  | VBool b => b
  | VNum n => negb (n =? 0)%Z
  | VStr s => negb (String.eqb s "")
  | VArr _ | VObj _ => true
  end.

(** [a || b]. *)
Definition or (a b : value) : value := if truthy a then a else b.

(** [parts.join(sep)] on strings. *)
Fixpoint join (sep : string) (parts : list string) : string :=
  match parts with
  | [] => ""
  | [s] => s
  | s :: rest => s +:+ sep +:+ join sep rest
  end.

(** *** Numbers *)

(** The double nearest to a natural number [a], ties to even: [Some (m, e)]
    is [m * 2 ^ e], with [m] below [2 ^ 53] and [e] zero when [a] is below
    [2 ^ 53], and [None] is Infinity. *)
Definition nearest (a : Z) : option (Z * Z) :=
  if (a <? 2 ^ 53)%Z then Some (a, 0%Z)
  else
    let e := (Z.log2 a - 52)%Z in
    let q := (a / 2 ^ e)%Z in
    let r := (a mod 2 ^ e)%Z in
    let half := (2 ^ (e - 1))%Z in
    let up := (half <? r)%Z || ((r =? half)%Z && Z.odd q) in
    let q := if up then (q + 1)%Z else q in
    let '(m, e) := if (q =? 2 ^ 53)%Z then ((2 ^ 52)%Z, (e + 1)%Z) else (q, e) in
    if (971 <? e)%Z then None else Some (m, e).

(** Whether the integer [v] is read as the double [m * 2 ^ e], for [e] at
    least 1: it lies between the midpoints to the two neighbours of the
    double, the midpoints included when [m] is even. *)
Definition rounds_to (m e v : Z) : bool :=
  let x := (m * 2 ^ e)%Z in
  let below := if (m =? 2 ^ 52)%Z then (2 ^ (e - 1))%Z else (2 ^ e)%Z in
  let lo := (2 * x - below)%Z in
  let hi := (2 * x + 2 ^ e)%Z in
  if Z.even m then (lo <=? 2 * v)%Z && (2 * v <=? hi)%Z
  else (lo <? 2 * v)%Z && (2 * v <? hi)%Z.

(** The decimal with the fewest digits that is read as [m * 2 ^ e], given as
    the integer it denotes and the number of zeros it ends in, looked for
    among the multiples of [10 ^ j] and then of the powers below. Of two
    that are as short the nearer one is taken, and the even one when they
    are as near. *)
Fixpoint shortest (m e : Z) (j : nat) : Z * nat :=
  let x := (m * 2 ^ e)%Z in
  let p := (10 ^ Z.of_nat j)%Z in
  let lo := (x / p * p)%Z in
  let hi := (lo + p)%Z in
  let lo_in := (0 <? lo)%Z && rounds_to m e lo in
  let hi_in := rounds_to m e hi in
  if (lo =? x)%Z then (x, j)
  else if lo_in && hi_in then
    if (x - lo <? hi - x)%Z then (lo, j)
    else if (hi - x <? x - lo)%Z then (hi, j)
    else if Z.even (lo / p) then (lo, j) else (hi, j)
  else if lo_in then (lo, j)
  else if hi_in then (hi, j)
  else match j with
       | O => (x, O)
       | S j' => shortest m e j'
       end.

(** Number::toString of the positive double [m * 2 ^ e]: its digits when it
    is below [2 ^ 53]; otherwise the shortest decimal that is read as it,
    written out when it has at most 21 digits and with an exponent when it
    has more. *)
Definition digits (m e : Z) : string :=
  let x := (m * 2 ^ e)%Z in
  if (e =? 0)%Z then pretty x
  else
    let '(v, j) := shortest m e (String.length (pretty x)) in
    let n := String.length (pretty v) in
    if decide (n ≤ 21) then pretty v
    else
      match pretty (v / 10 ^ Z.of_nat j)%Z with
      | String d EmptyString => String d ("e+" +:+ pretty (n - 1))
      | String d rest => String d ("." +:+ rest +:+ "e+" +:+ pretty (n - 1))
      | EmptyString => ""
      end.

(** ToString of the number [VNum n]. *)
Definition Number_toString (n : Z) : string :=
  match n with
  | Z0 => "0"
  | Zpos _ =>
      match nearest n with
      | Some (m, e) => digits m e
      | None => "Infinity"
      end
  | Zneg _ =>
      match nearest (- n) with
      | Some (m, e) => "-" +:+ digits m e
      | None => "-Infinity"
      end
  end.
Arguments Number_toString : simpl never.

(** *** Conversions *)

(** ToString, as applied by template literals, by [+] on a string and by
    the DOM when a value is assigned to a string attribute. An array prints
    its elements joined by commas, null and undefined as nothing. A parsed
    object prints as [[object Object]], unless it has a property [toString]
    of its own: that property is not a function, and the conversion throws
    a TypeError. *)
Fixpoint ToString (v : value) : exn + string :=
  match v with
  | VUndefined => inr "undefined"
  | VNull => inr "null"
  | VBool true => inr "true"
  | VBool false => inr "false"
  | VNum n => inr (Number_toString n)
  | VStr s => inr s
  | VArr items =>
      match
        (fix elements (l : list value) : exn + list string :=
           match l with
           | [] => inr []
           | x :: l' =>
               match (match x with
                      | VUndefined | VNull => inr ""
                      | _ => ToString x
                      end), elements l' with
               | inl e, _ => inl e
               | inr _, inl e => inl e
               | inr s, inr ss => inr (s :: ss)
               end
           end) items
      with
      | inl e => inl e
      | inr parts => inr (join "," parts)
      end
  | VObj props =>
      if decide (is_Some (props !! "toString")) then inl TypeError
      else inr "[object Object]"
  end.

(** [v.k], for a name [k] that no prototype defines and that is neither an
    index nor [length] (the scripts read [survey_id], [survey_url], [error]
    and [message]): a TypeError on null and undefined, the property of an
    object, undefined otherwise. *)
Definition get (v : value) (k : string) : exn + value :=
  match v with
  | VUndefined | VNull => inl TypeError
  | VObj props => inr (default VUndefined (props !! k))
  | _ => inr VUndefined
  end.

(** Assignment to [node.textContent] (a nullable DOMString). *)
Definition textContent (v : value) : exn + string :=
  match v with
  | VUndefined | VNull => inr ""
  | _ => ToString v
  end.

(** The line feed (code 10) and the carriage return (code 13). *)
Definition LF : Ascii.ascii := Eval cbv in Ascii.ascii_of_nat 10.
Definition CR : Ascii.ascii := Eval cbv in Ascii.ascii_of_nat 13.

(** What a text input keeps of a string assigned to its value: all but the
    line breaks. *)
Fixpoint strip_newlines (s : string) : string :=
  match s with
  | EmptyString => ""
  | String c rest =>
      if Ascii.eqb c LF || Ascii.eqb c CR then strip_newlines rest
      else String c (strip_newlines rest)
  end.

(** What a text area gives back of a string assigned to its value: a
    carriage return, with the line feed that follows it if one does, has
    become a line feed. *)
Fixpoint normalize_newlines (s : string) : string :=
  match s with
  | EmptyString => ""
  | String c rest =>
      if Ascii.eqb c CR then
        String LF
          match rest with
          | String c' rest' =>
              if Ascii.eqb c' LF then normalize_newlines rest'
              else normalize_newlines rest
          | EmptyString => ""
          end
      else String c (normalize_newlines rest)
  end.

(** Assignment to [input.value] of a text input: null becomes the empty
    string, and line breaks are dropped. *)
Definition inputValue (v : value) : exn + string :=
  match v with
  | VNull => inr ""
  | _ => match ToString v with
         | inl e => inl e
         | inr s => inr (strip_newlines s)
         end
  end.

(** [s.includes(needle)]. *)
Fixpoint includes (needle s : string) : bool :=
  String.prefix needle s ||
  match s with
  | EmptyString => false
  | String _ s' => includes needle s'
  end.

(** The character ['/'] (code 47). *)
Definition slash : Ascii.ascii := Eval cbv in Ascii.ascii_of_nat 47.

(** [s.split(sep)] for a one-character separator: never empty. *)
Fixpoint split (sep : Ascii.ascii) (s : string) : list string :=
  match s with
  | EmptyString => [""]
  | String c s' =>
      if Ascii.eqb c sep then "" :: split sep s'
      else match split sep s' with
           | seg :: segs => String c seg :: segs
           | [] => [String c ""]
           end
  end.

(** [arr[i]]: undefined out of range. *)
Definition index (arr : list string) (i : Z) : value :=
  if (i <? 0)%Z then VUndefined
  else from_option VStr VUndefined (arr !! Z.to_nat i).

(** [data[key] = value] on an object literal, for a string [value]: every
    key creates or overwrites an own property, except [__proto__], whose
    inherited setter ignores a value that is not an object. *)
Definition assign (key val : string) (data : gmap string string)
  : gmap string string :=
  if String.eqb key "__proto__" then data else <[key := val]> data.

End Js.

(** ** The browser and the monad of handlers *)

Record File := { file_name : string; file_bytes : string }.

Inductive Method := GET | POST.

Inductive Body :=
| FormDataBody (entries : list (string * File))
| JsonBody (obj : gmap string string).

Record Request := {
  url : string;
  method : Method;
  headers : list (string * string);
  body : Body
}.

Record Response := {
  ok : bool;
  (** what [response.json()] resolves to; [None] when it rejects *)
  json : option Js.value
}.

Inductive FetchOutcome :=
| NetFail
| Responds (r : Response).

Record Browser := {
  net : nat → FetchOutcome;
  sent : list Request;
  alerts : list string;
  console : list string;
  pathname : string;
  navigations : list string
}.

Inductive res (A : Type) :=
| Ok (a : A)
| Throw (e : Js.exn).
Arguments Ok {A} a.
Arguments Throw {A} e.

Definition JS (P A : Type) : Type := Browser * P → res A * (Browser * P).

Definition run {P A} (m : JS P A) (w : Browser * P) : res A * (Browser * P) := m w.
Definition exec {P A} (m : JS P A) (w : Browser * P) : Browser * P := (m w).2.
Definition outcome {P A} (m : JS P A) (w : Browser * P) : res A := (m w).1.

Definition ret {P A} (a : A) : JS P A := λ w, (Ok a, w).

Definition bind {P A B} (m : JS P A) (k : A → JS P B) : JS P B :=
  λ w, match m w with
       | (Ok a, w') => k a w'
       | (Throw e, w') => (Throw e, w')
       end.

Definition throw {P A} (e : Js.exn) : JS P A := λ w, (Throw e, w).

(** [try { m } catch (error) { h error }] *)
Definition try_catch {P A} (m : JS P A) (h : Js.exn → JS P A) : JS P A :=
  λ w, match m w with
       | (Ok a, w') => (Ok a, w')
       | (Throw e, w') => h e w'
       end.

(** [m.finally(f)] *)
Definition finally {P A} (m : JS P A) (f : JS P unit) : JS P A :=
  λ w, match m w with
       | (r, w') => match f w' with
                    | (Ok _, w'') => (r, w'')
                    | (Throw e, w'') => (Throw e, w'')
                    end
       end.

Global Instance JS_ret P : MRet (JS P) := λ A, ret.
Global Instance JS_bind P : MBind (JS P) := λ A B k m, bind m k.

Definition page {P} : JS P P := λ w, (Ok w.2, w).
Definition browser {P} : JS P Browser := λ w, (Ok w.1, w).
Definition update {P} (f : P → P) : JS P unit := λ w, (Ok tt, (w.1, f w.2)).
Definition update_browser {P} (f : Browser → Browser) : JS P unit :=
  λ w, (Ok tt, (f w.1, w.2)).
Definition lift {P A} (r : Js.exn + A) : JS P A :=
  match r with inl e => throw e | inr a => ret a end.

Definition log_sent (r : Request) (b : Browser) : Browser :=
  {| net := net b; sent := sent b ++ [r]; alerts := alerts b;
     console := console b; pathname := pathname b;
     navigations := navigations b |}.

Definition log_alert (s : string) (b : Browser) : Browser :=
  {| net := net b; sent := sent b; alerts := alerts b ++ [s];
     console := console b; pathname := pathname b;
     navigations := navigations b |}.

Definition log_console (s : string) (b : Browser) : Browser :=
  {| net := net b; sent := sent b; alerts := alerts b;
     console := console b ++ [s]; pathname := pathname b;
     navigations := navigations b |}.

Definition log_navigation (s : string) (b : Browser) : Browser :=
  {| net := net b; sent := sent b; alerts := alerts b;
     console := console b; pathname := pathname b;
     navigations := navigations b ++ [s] |}.

(** [await fetch(url, init)]: the request is recorded, and the oracle decides
    whether the promise rejects or resolves to a response. *)
Definition fetch {P} (r : Request) : JS P Response :=
  λ w, match net w.1 (length (sent w.1)) with
       | NetFail => (Throw Js.NetworkError, (log_sent r w.1, w.2))
       | Responds resp => (Ok resp, (log_sent r w.1, w.2))
       end.

(** [await response.json()] *)
Definition response_json {P} (r : Response) : JS P Js.value :=
  match json r with
  | Some v => ret v
  | None => throw Js.SyntaxError
  end.

(** [window.alert]: the browser's own dialog; the call returns once the user
    has closed it. *)
Definition alert {P} (s : string) : JS P unit := update_browser (log_alert s).
Definition console_error {P} (s : string) : JS P unit :=
  update_browser (log_console s).
Definition set_location_href {P} (s : string) : JS P unit :=
  update_browser (log_navigation s).

Definition console_log {P} (s : string) : JS P unit :=
  update_browser (log_console s).

(** [classList.add(...)] and [classList.remove(...)]; a [classList] is a set
    of tokens. *)
Definition classList_add (tokens cl : gset string) : gset string := cl ∪ tokens.
Definition classList_remove (tokens cl : gset string) : gset string := cl ∖ tokens.

(** ** The admin page: static/admin_script.js, the DOMContentLoaded closure *)

Module Admin.

(** The elements the closure selects, reduced to what the handlers read and
    write, and the closure's one variable. A [classList] is a set of
    tokens. *)
Record Page := {
  uploadScreen : gset string;
  publishedScreen : gset string;
  shareLinkInput : string;
  shareEmailInput : string;
  successModal : gset string;
  modalTitle : string;
  modalMessage : string;
  currentSurveyId : Js.value
}.

Definition set_uploadScreen (f : gset string → gset string) (p : Page) : Page :=
  {| uploadScreen := f (uploadScreen p); publishedScreen := publishedScreen p;
     shareLinkInput := shareLinkInput p; shareEmailInput := shareEmailInput p;
     successModal := successModal p; modalTitle := modalTitle p;
     modalMessage := modalMessage p; currentSurveyId := currentSurveyId p |}.

Definition set_publishedScreen (f : gset string → gset string) (p : Page) : Page :=
  {| uploadScreen := uploadScreen p; publishedScreen := f (publishedScreen p);
     shareLinkInput := shareLinkInput p; shareEmailInput := shareEmailInput p;
     successModal := successModal p; modalTitle := modalTitle p;
     modalMessage := modalMessage p; currentSurveyId := currentSurveyId p |}.

Definition set_shareLinkInput (v : string) (p : Page) : Page :=
  {| uploadScreen := uploadScreen p; publishedScreen := publishedScreen p;
     shareLinkInput := v; shareEmailInput := shareEmailInput p;
     successModal := successModal p; modalTitle := modalTitle p;
     modalMessage := modalMessage p; currentSurveyId := currentSurveyId p |}.

Definition set_shareEmailInput (v : string) (p : Page) : Page :=
  {| uploadScreen := uploadScreen p; publishedScreen := publishedScreen p;
     shareLinkInput := shareLinkInput p; shareEmailInput := v;
     successModal := successModal p; modalTitle := modalTitle p;
     modalMessage := modalMessage p; currentSurveyId := currentSurveyId p |}.

Definition set_successModal (f : gset string → gset string) (p : Page) : Page :=
  {| uploadScreen := uploadScreen p; publishedScreen := publishedScreen p;
     shareLinkInput := shareLinkInput p; shareEmailInput := shareEmailInput p;
     successModal := f (successModal p); modalTitle := modalTitle p;
     modalMessage := modalMessage p; currentSurveyId := currentSurveyId p |}.

Definition set_modalTitle (v : string) (p : Page) : Page :=
  {| uploadScreen := uploadScreen p; publishedScreen := publishedScreen p;
     shareLinkInput := shareLinkInput p; shareEmailInput := shareEmailInput p;
     successModal := successModal p; modalTitle := v;
     modalMessage := modalMessage p; currentSurveyId := currentSurveyId p |}.

Definition set_modalMessage (v : string) (p : Page) : Page :=
  {| uploadScreen := uploadScreen p; publishedScreen := publishedScreen p;
     shareLinkInput := shareLinkInput p; shareEmailInput := shareEmailInput p;
     successModal := successModal p; modalTitle := modalTitle p;
     modalMessage := v; currentSurveyId := currentSurveyId p |}.

Definition set_currentSurveyId (v : Js.value) (p : Page) : Page :=
  {| uploadScreen := uploadScreen p; publishedScreen := publishedScreen p;
     shareLinkInput := shareLinkInput p; shareEmailInput := shareEmailInput p;
     successModal := successModal p; modalTitle := modalTitle p;
     modalMessage := modalMessage p; currentSurveyId := v |}.

(** The two classes that slide the modal out of view. *)
Definition modal_hiding : gset string := {[ "translate-x-full"; "opacity-0" ]}.

(** The page once [showModal] has put [title] and [message] on it. *)
Definition shown (title message : string) (p : Page) : Page :=
  set_successModal (classList_remove modal_hiding)
    (set_modalMessage message (set_modalTitle title p)).

Definition showModal (title message : Js.value) : JS Page unit :=
  title ← lift (Js.textContent title);
  update (set_modalTitle title);;
  message ← lift (Js.textContent message);
  update (set_modalMessage message);;
  update (set_successModal (classList_remove modal_hiding)).

Definition hideModal : JS Page unit :=
  update (set_successModal (classList_add modal_hiding)).

(** [closeModalButton.addEventListener('click', hideModal)] *)
Definition closeModalButton_click : JS Page unit := hideModal.

Definition upload_request (file : File) : Request :=
  {| url := "/upload"; method := POST; headers := [];
     body := FormDataBody [("surveyFile", file)] |}.

(** [fileInput.addEventListener('change', ...)]; [files] is
    [event.target.files]. *)
Definition fileInput_change (files : list File) : JS Page unit :=
  match files !! 0%nat with
  | None => mret tt
  | Some file =>
      try_catch
        (response ← fetch (upload_request file);
         result ← response_json response;
         if ok response then
           survey_id ← lift (Js.get result "survey_id");
           update (set_currentSurveyId survey_id);;
           survey_url ← lift (Js.get result "survey_url");
           survey_url ← lift (Js.inputValue survey_url);
           update (set_shareLinkInput survey_url);;
           update (set_uploadScreen (classList_add {[ "hidden" ]}));;
           update (set_publishedScreen (classList_remove {[ "hidden" ]}));;
           showModal (Js.VStr "Success!") (Js.VStr "Your form has been published.")
         else
           error ← lift (Js.get result "error");
           showModal (Js.VStr "Upload Failed")
             (Js.or error (Js.VStr "An unknown error occurred.")))
        (λ error,
           console_error "Error uploading file:";;
           showModal (Js.VStr "Error") (Js.VStr "Could not connect to the server."))
  end.

Definition share_request (email link : string) : Request :=
  {| url := "/share_email"; method := POST;
     headers := [("Content-Type", "application/json")];
     body := JsonBody {[ "email" := email; "link" := link ]} |}.

(** [emailButton.addEventListener('click', ...)] *)
Definition emailButton_click : JS Page unit :=
  p ← page;
  let email := shareEmailInput p in
  let link := shareLinkInput p in
  if negb (Js.truthy (Js.VStr email)) || negb (Js.includes "@" email) then
    showModal (Js.VStr "Error") (Js.VStr "Please enter a valid email address.")
  else
    try_catch
      (response ← fetch (share_request email link);
       result ← response_json response;
       if ok response then
         message ← lift (Js.get result "message");
         showModal (Js.VStr "Email Sent") message
       else
         error ← lift (Js.get result "error");
         showModal (Js.VStr "Error") (Js.or error (Js.VStr "Failed to send email.")))
      (λ error,
         console_error "Error sending email:";;
         showModal (Js.VStr "Error") (Js.VStr "Could not connect to the server.")).

(** [downloadButton.addEventListener('click', ...)] *)
Definition downloadButton_click : JS Page unit :=
  p ← page;
  if negb (Js.truthy (currentSurveyId p)) then
    showModal (Js.VStr "Error")
      (Js.VStr "Cannot download responses, survey ID is missing.")
  else
    id ← lift (Js.ToString (currentSurveyId p));
    set_location_href ("/download/" +:+ id).

(** What the user can do on the page that reaches one of these handlers,
    and typing into the email input, which reaches none: after
    [TypeEmail email] the input holds [email]. *)
Inductive Action :=
| ChooseFiles (files : list File)
| TypeEmail (email : string)
| ClickEmail
| ClickDownload
| ClickCloseModal.

Definition handler (a : Action) : JS Page unit :=
  match a with
  | ChooseFiles files => fileInput_change files
  | TypeEmail email => update (set_shareEmailInput email)
  | ClickEmail => emailButton_click
  | ClickDownload => downloadButton_click
  | ClickCloseModal => closeModalButton_click
  end.

End Admin.

(** ** The survey page: static/survey_script.js *)

Module Survey.

(** The field kinds of a rendered survey, and the submit button. *)
Inductive Kind := Text | Date | Checkbox | Select | Submit.

Global Instance Kind_eq_dec : EqDecision Kind.
Proof. solve_decision. Defined.

(** One control of the form. A select is reduced to the value of its
    selected option, and its options are enabled or disabled together, which
    is all the script can do to them. *)
Record Control := {
  id : string;
  name : string;
  kind : Kind;
  value : string;
  defaultValue : string;
  checked : bool;
  defaultChecked : bool;
  disabled : bool;
  optionsDisabled : bool
}.

Record Page := {
  surveyForm : list Control;
  successModal : gset string
}.

Definition set_surveyForm (f : list Control → list Control) (p : Page) : Page :=
  {| surveyForm := f (surveyForm p); successModal := successModal p |}.

Definition set_successModal (f : gset string → gset string) (p : Page) : Page :=
  {| surveyForm := surveyForm p; successModal := f (successModal p) |}.

(** Whether a control contributes an entry to [new FormData(form)]: it is
    enabled, named, not a button, a checkbox only when ticked, and a select
    only when its selected option is enabled. *)
Definition successful (c : Control) : bool :=
  negb (disabled c) && negb (String.eqb (name c) "") &&
  match kind c with
  | Submit => false
  | Checkbox => checked c
  | Select => negb (optionsDisabled c)
  | _ => true
  end.

(** [new FormData(form)], as its list of entries in tree order. *)
Definition FormData (form : list Control) : list (string * string) :=
  (λ c, (name c, value c)) <$> filter (λ c, successful c = true) form.

(** What the built-in [reset] of a form does to one control. *)
Definition reset_control (c : Control) : Control :=
  match kind c with
  | Submit => c
  | Checkbox =>
      {| id := id c; name := name c; kind := kind c; value := value c;
         defaultValue := defaultValue c; checked := defaultChecked c;
         defaultChecked := defaultChecked c; disabled := disabled c;
         optionsDisabled := optionsDisabled c |}
  | _ =>
      {| id := id c; name := name c; kind := kind c; value := defaultValue c;
         defaultValue := defaultValue c; checked := checked c;
         defaultChecked := defaultChecked c; disabled := disabled c;
         optionsDisabled := optionsDisabled c |}
  end.

(** [element.disabled = true] on a control. *)
Definition disable (c : Control) : Control :=
  {| id := id c; name := name c; kind := kind c; value := value c;
     defaultValue := defaultValue c; checked := checked c;
     defaultChecked := defaultChecked c; disabled := true;
     optionsDisabled := optionsDisabled c |}.

(** [element.disabled = true] on each option of a control: only a select
    has options. *)
Definition disable_options (c : Control) : Control :=
  match kind c with
  | Select =>
      {| id := id c; name := name c; kind := kind c; value := value c;
         defaultValue := defaultValue c; checked := checked c;
         defaultChecked := defaultChecked c; disabled := disabled c;
         optionsDisabled := true |}
  | _ => c
  end.

(** Whether [form[key]] finds the control: its id or its name is [key]. *)
Definition is_named (key : string) (c : Control) : bool :=
  String.eqb (id c) key || String.eqb (name c) key.

(** The controls that [form[key]] finds. A form looks a property up among
    its controls before it looks at its own methods and attributes, so that
    [form.reset] and [form.elements] are the built-ins only when this is
    empty. *)
Definition named (key : string) (form : list Control) : list Control :=
  filter (λ c, is_named key c = true) form.
Arguments named : simpl never.

(** [Array.from(form.elements).forEach(element => element.disabled = true)].
    [form.elements] is the collection of all the controls, unless controls
    are found under that name: one control, of which [Array.from] takes the
    options if it is a select and nothing otherwise, or the list of the
    several controls found. *)
Definition disable_elements (form : list Control) : list Control :=
  match named "elements" form with
  | [] => disable <$> form
  | [_] => (λ c, if is_named "elements" c then disable_options c else c) <$> form
  | _ => (λ c, if is_named "elements" c then disable c else c) <$> form
  end.

(** A user starts a submission from a control of the form (the submit
    button, or Enter in a field), and a disabled control can be neither
    focused nor activated. *)
Definition submittable (form : list Control) : bool :=
  existsb (λ c, negb (disabled c)) form.

(** [formData.forEach((value, key) => { data[key] = value; })] from [{}] *)
Definition to_object (formData : list (string * string)) : gmap string string :=
  foldl (λ data entry, Js.assign entry.1 entry.2 data) ∅ formData.

Definition submit_request (surveyId : string) (data : gmap string string)
  : Request :=
  {| url := "/submit/" +:+ surveyId; method := POST;
     headers := [("Content-Type", "application/json")];
     body := JsonBody data |}.

(** [form.reset()]: a TypeError when [form.reset] is a control, or the list
    of several. *)
Definition form_reset : JS Page unit :=
  p ← page;
  match named "reset" (surveyForm p) with
  | [] => update (set_surveyForm (fmap reset_control))
  | _ => throw Js.TypeError
  end.

(** [document.getElementById('surveyForm').addEventListener('submit', ...)] *)
Definition surveyForm_submit : JS Page unit :=
  b ← browser;
  let pathParts := Js.split Js.slash (pathname b) in
  let surveyId := Js.index pathParts (Z.of_nat (length pathParts) - 1) in
  if negb (Js.truthy surveyId) then
    console_error "Survey ID not found in URL!";;
    alert "Error: Cannot submit form without a survey ID."
  else
    p ← page;
    let formData := FormData (surveyForm p) in
    let data := to_object formData in
    console_log "Submitting form data:";;
    try_catch
      (id ← lift (Js.ToString surveyId);
       response ← fetch (submit_request id data);
       result ← response_json response;
       if ok response then
         update (set_successModal (classList_remove {[ "hidden" ]}));;
         form_reset;;
         update (set_surveyForm disable_elements)
       else
         error ← lift (Js.get result "error");
         text ← lift (Js.ToString
                        (Js.or error (Js.VStr "Could not submit survey.")));
         alert ("Error: " +:+ text))
      (λ error,
         console_error "Submission error:";;
         alert "An error occurred while submitting the form.").

End Survey.

(** ** The share dialog: static/admin_script.js, the dashboard shape *)

Module Share.

Record Button := { innerHTML : string; disabled : bool }.

(** Every element here is looked up once at load and may be null. *)
Record Page := {
  shareModal : option (gset string);
  modalLinkInput : option string;
  modalEmailInput : option string;
  (** [document.querySelector('#shareModal button...')] *)
  btn : option Button
}.

Definition set_shareModal (f : gset string → gset string) (p : Page) : Page :=
  {| shareModal := f <$> shareModal p; modalLinkInput := modalLinkInput p;
     modalEmailInput := modalEmailInput p; btn := btn p |}.

Definition set_btn (b : Button) (p : Page) : Page :=
  {| shareModal := shareModal p; modalLinkInput := modalLinkInput p;
     modalEmailInput := modalEmailInput p; btn := (λ _, b) <$> btn p |}.

(** [input.value] of an element that may be null. *)
Definition value_of {P} (input : option string) : JS P string :=
  match input with
  | None => throw Js.TypeError
  | Some v => mret v
  end.

(** The markup of the loading state:
    [<i class=?fa fa-spinner fa-spin?></i> Sending...] with a double quote
    at each [?]. *)
Definition spinner : string :=
  let q := String (Ascii.ascii_of_nat 34) "" in
  "<i class=" +:+ q +:+ "fa fa-spinner fa-spin" +:+ q +:+ "></i> Sending...".

Definition closeShareModal : JS Page unit :=
  update (set_shareModal (classList_add {[ "hidden" ]})).

Definition share_request (email link : string) : Request :=
  {| url := "/share_email"; method := POST;
     headers := [("Content-Type", "application/json")];
     body := JsonBody {[ "email" := email; "link" := link ]} |}.

Definition sendEmail : JS Page unit :=
  p ← page;
  email ← value_of (modalEmailInput p);
  link ← value_of (modalLinkInput p);
  if negb (Js.truthy (Js.VStr email)) then
    alert "Please enter an email address"
  else
    let originalContent := from_option innerHTML "Send Now" (btn p) in
    update (set_btn {| innerHTML := spinner; disabled := true |});;
    finally
      (try_catch
         (response ← fetch (share_request email link);
          data ← response_json response;
          error ← lift (Js.get data "error");
          if Js.truthy error then
            text ← lift (Js.ToString error);
            alert (" Error: " +:+ text)
          else
            message ← lift (Js.get data "message");
            text ← lift (Js.ToString
                           (Js.or message (Js.VStr "Email sent successfully!")));
            alert (" " +:+ text);;
            closeShareModal)
         (λ err,
            console_error "err";;
            alert " Failed to connect to server."))
      (update (set_btn {| innerHTML := originalContent; disabled := false |})).

End Share.

(** ** User actions in sequence *)

(** The handlers of successive user actions, each run to completion on the
    world the previous one left; an exception that escapes a handler is
    reported by the browser and does not stop the page. *)
Fixpoint dispatch {P} (actions : list (JS P unit)) : JS P unit :=
  match actions with
  | [] => ret tt
  | h :: rest => λ w, dispatch rest (exec h w)
  end.

(** ** The vocabulary of the specification *)

Module Spec.

(** The character occurs in the string. *)
Definition occurs (c : Ascii.ascii) (s : string) : Prop :=
  In c (String.list_ascii_of_string s).

(** The character ['@'] (code 64). *)
Definition at_sign : Ascii.ascii := Eval cbv in Ascii.ascii_of_nat 64.

(** An address the client must not send: empty, or without an ['@']. *)
Definition invalid_email (email : string) : Prop :=
  email = "" ∨ ¬ occurs at_sign email.

(** [seg] is what follows the last ['/'] of [path], or all of [path] when
    it has none. *)
Definition last_segment (path seg : string) : Prop :=
  ¬ occurs Js.slash seg ∧
  (path = seg ∨ ∃ before, path = before +:+ String Js.slash seg).

(** [t] is [s] without its line feeds and carriage returns. *)
Definition without_line_breaks (s t : string) : Prop :=
  String.list_ascii_of_string t =
    filter (λ c, c ≠ Js.LF ∧ c ≠ Js.CR) (String.list_ascii_of_string s).

(** The string holds no line break. *)
Definition single_line (s : string) : Prop :=
  ¬ occurs Js.LF s ∧ ¬ occurs Js.CR s.

(** No control of the form has [key] as its id or as its name. *)
Definition unnamed (key : string) (form : list Survey.Control) : Prop :=
  Forall (λ c, Survey.id c ≠ key ∧ Survey.name c ≠ key) form.

(** The request carries the pair [key], [val] in its JSON body. *)
Definition body_has (r : Request) (key val : string) : Prop :=
  ∃ data, body r = JsonBody data ∧ data !! key = Some val.

(** The values submitted under [key], in the order of the entries. *)
Definition values_of (key : string) (entries : list (string * string))
  : list string :=
  snd <$> filter (λ e, e.1 = key) entries.

(** [m] calls [fetch] at most [n] times, whatever the world. *)
Definition fetches_at_most {P A} (n : nat) (m : JS P A) : Prop :=
  ∀ w, ∃ reqs, sent (exec m w).1 = sent w.1 ++ reqs ∧ length reqs ≤ n.

End Spec.

(** ** Concrete pages and servers, used to run the handlers *)

Module Sample.

(** A browser on [path] whose every request meets [o]. *)
Definition browser_on (path : string) (o : FetchOutcome) : Browser :=
  {| net := λ _, o; sent := []; alerts := []; console := [];
     pathname := path; navigations := [] |}.

Definition sheet : File :=
  {| file_name := "questions.xlsx"; file_bytes := "PK" |}.

(** The admin page as it is before any upload, with [email] typed in. *)
Definition admin (email : string) : Admin.Page :=
  {| Admin.uploadScreen := ∅;
     Admin.publishedScreen := {[ "hidden" ]};
     Admin.shareLinkInput := "";
     Admin.shareEmailInput := email;
     Admin.successModal := Admin.modal_hiding;
     Admin.modalTitle := "";
     Admin.modalMessage := "";
     Admin.currentSurveyId := Js.VNull |}.

Definition published : gmap string Js.value :=
  {[ "survey_id" := Js.VStr "abc-123";
     "survey_url" := Js.VStr "http://127.0.0.1:5000/survey/abc-123" ]}.

Definition failure (message : string) : Response :=
  {| ok := false; json := Some (Js.VObj {[ "error" := Js.VStr message ]}) |}.

Definition tick (n v : string) : Survey.Control :=
  {| Survey.id := ""; Survey.name := n; Survey.kind := Survey.Checkbox;
     Survey.value := v; Survey.defaultValue := v; Survey.checked := true;
     Survey.defaultChecked := false; Survey.disabled := false;
     Survey.optionsDisabled := false |}.

Definition field (n v : string) : Survey.Control :=
  {| Survey.id := ""; Survey.name := n; Survey.kind := Survey.Text;
     Survey.value := v; Survey.defaultValue := ""; Survey.checked := false;
     Survey.defaultChecked := false; Survey.disabled := false;
     Survey.optionsDisabled := false |}.

Definition submit_button : Survey.Control :=
  {| Survey.id := ""; Survey.name := ""; Survey.kind := Survey.Submit;
     Survey.value := "Submit"; Survey.defaultValue := "Submit";
     Survey.checked := false; Survey.defaultChecked := false;
     Survey.disabled := false; Survey.optionsDisabled := false |}.

(** A survey with a text question and a two-option checkbox question, both
    options ticked. *)
Definition survey : Survey.Page :=
  {| Survey.surveyForm :=
       [field "name" "Asha"; tick "colors" "red"; tick "colors" "blue";
        submit_button];
     Survey.successModal := {[ "hidden" ]} |}.

Definition share (email : string) : Share.Page :=
  {| Share.shareModal := Some ∅;
     Share.modalLinkInput := Some "http://127.0.0.1:5000/survey/abc-123";
     Share.modalEmailInput := Some email;
     Share.btn := Some {| Share.innerHTML := "Send Now";
                          Share.disabled := false |} |}.

End Sample.

(** * The rest of the scripts *)

(** ** Running a handler on a part of the page *)

(** [zoom get set m] runs [m] on the part [get] of the page and puts the
    part back with [set]. *)
Definition zoom {P Q A} (get : P → Q) (set : Q → P → P) (m : JS Q A) : JS P A :=
  λ w, match m (w.1, get w.2) with
       | (r, (b, q)) => (r, (b, set q w.2))
       end.

(** ** The clipboard *)

(** What [document.execCommand('copy')] does where the script runs: it copies
    the selection and returns true, returns false when the browser does not
    allow the command, or throws. The scripts never look at what was
    thrown. *)
Inductive ExecCommand :=
| Copies
| Refuses
| Fails (e : Js.exn).

Record Clipboard := {
  clipboard : string;
  selection : string;
  execCommand_copy : ExecCommand
}.

(** [input.select()], for an input that holds [text]. *)
Definition select (text : string) (c : Clipboard) : Clipboard :=
  {| clipboard := clipboard c; selection := text;
     execCommand_copy := execCommand_copy c |}.

(** [navigator.clipboard.writeText(text)], once it has resolved. *)
Definition written (text : string) (c : Clipboard) : Clipboard :=
  {| clipboard := text; selection := selection c;
     execCommand_copy := execCommand_copy c |}.

(** [document.execCommand('copy')] and what it returns. *)
Definition execCommand (c : Clipboard) : Js.exn + (bool * Clipboard) :=
  match execCommand_copy c with
  | Copies => inr (true, written (selection c) c)
  | Refuses => inr (false, c)
  | Fails e => inl e
  end.

(** ** The copy button of the admin page: static/admin_script.js *)

Module Copy.

Record Page := {
  admin : Admin.Page;
  board : Clipboard
}.

Definition set_admin (a : Admin.Page) (p : Page) : Page :=
  {| admin := a; board := board p |}.

Definition set_board (c : Clipboard) (p : Page) : Page :=
  {| admin := admin p; board := c |}.

(** A handler of the closure, on the page with its clipboard. *)
Definition on_admin {A} (m : JS Admin.Page A) : JS Page A := zoom admin set_admin m.

(** [copyButton.addEventListener('click', ...)]: what [execCommand] returns
    is dropped. *)
Definition copyButton_click : JS Page unit :=
  p ← page;
  update (set_board (select (Admin.shareLinkInput (admin p)) (board p)));;
  p ← page;
  copied ← lift (execCommand (board p));
  update (set_board copied.2);;
  on_admin (Admin.showModal (Js.VStr "Link Copied")
              (Js.VStr "The survey link is now in your clipboard.")).

End Copy.

(** ** The demo sheet: static/admin_script.js, outside the closure *)

Module Demo.

(** [ExcelPage] and [toggleButton] are elements the closure has looked up by
    these ids; nothing in the script or its closure declares
    [lavenderPage], which is there only if the page happens to have an
    element of that id. *)
Record Page := {
  ExcelPage : gset string;
  toggleButton : string;
  lavenderPage : option (gset string)
}.

(** The classes that lay the sheet out when it is shown. *)
Definition layout : gset string :=
  {[ "flex"; "flex-col"; "items-center"; "justify-center" ]}.

Definition togglePage (p : Page) : Page :=
  if decide ("hidden" ∈ ExcelPage p) then
    {| ExcelPage := classList_add layout (classList_remove {[ "hidden" ]} (ExcelPage p));
       toggleButton := "Hide Demo Excelsheet";
       lavenderPage := lavenderPage p |}
  else
    {| ExcelPage := classList_remove layout (classList_add {[ "hidden" ]} (ExcelPage p));
       toggleButton := "Show Demo Excelsheet";
       lavenderPage := lavenderPage p |}.

(** How a handler that reads [lavenderPage] ends. *)
Inductive Completion :=
| Returns (p : Page)
| ReferenceError.

(** [document.addEventListener('keydown', ...)]; [key] is [event.key]. *)
Definition keydown (key : string) (p : Page) : Completion :=
  if String.eqb key "Escape" then
    match lavenderPage p with
    | None => ReferenceError
    | Some classes =>
        if negb (bool_decide ("hidden" ∈ classes)) then Returns (togglePage p)
        else Returns p
    end
  else Returns p.

End Demo.

(** ** Percent-encoding *)

Module Uri.

(** A string is the sequence of the bytes of its UTF-8 form, which is what
    [encodeURIComponent] escapes one by one. *)

(** The characters [encodeURIComponent] leaves as they are: letters, digits
    and [- _ . ! ~ * ' ( )]. *)
Definition unreserved (c : Ascii.ascii) : bool :=
  let n := Ascii.N_of_ascii c in
  ((48 <=? n) && (n <=? 57) || (65 <=? n) && (n <=? 90) ||
   (97 <=? n) && (n <=? 122))%N ||
  bool_decide (n ∈ [45; 95; 46; 33; 126; 42; 39; 40; 41]%N).

(** The upper-case hexadecimal digit of a number below 16. *)
Definition hex (n : N) : Ascii.ascii :=
  Ascii.ascii_of_N (if (n <? 10)%N then 48 + n else 55 + n).

(** The character ['%'] (code 37). *)
Definition percent : Ascii.ascii := Eval cbv in Ascii.ascii_of_nat 37.

Fixpoint encodeURIComponent (s : string) : string :=
  match s with
  | EmptyString => EmptyString
  | String c rest =>
      if unreserved c then String c (encodeURIComponent rest)
      else
        let n := Ascii.N_of_ascii c in
        String percent
          (String (hex (n / 16)) (String (hex (n mod 16)) (encodeURIComponent rest)))
  end.

End Uri.

(** ** The dashboard: static/admin_script.js, the dashboard shape *)

Module Dialog.

(** The share dialog of [Share], and what the other functions of the script
    touch: the template preview, the WhatsApp link, the clipboard and what
    the browser offers for it, the text areas the script has appended to
    [document.body], and the prompts it has opened. *)
Record Page := {
  share : Share.Page;
  templatePreview : option (gset string);
  whatsappBtn : option string;
  board : Clipboard;
  (** [navigator.clipboard] is there *)
  navigator_clipboard : bool;
  isSecureContext : bool;
  (** why [writeText] rejects, if it does *)
  writeText : option Js.exn;
  body_textareas : list string;
  prompts : list (string * string)
}.

Definition set_share (s : Share.Page) (p : Page) : Page :=
  {| share := s; templatePreview := templatePreview p;
     whatsappBtn := whatsappBtn p; board := board p;
     navigator_clipboard := navigator_clipboard p;
     isSecureContext := isSecureContext p; writeText := writeText p;
     body_textareas := body_textareas p; prompts := prompts p |}.

Definition set_templatePreview (f : gset string → gset string) (p : Page) : Page :=
  {| share := share p; templatePreview := f <$> templatePreview p;
     whatsappBtn := whatsappBtn p; board := board p;
     navigator_clipboard := navigator_clipboard p;
     isSecureContext := isSecureContext p; writeText := writeText p;
     body_textareas := body_textareas p; prompts := prompts p |}.

Definition set_whatsappBtn (href : string) (p : Page) : Page :=
  {| share := share p; templatePreview := templatePreview p;
     whatsappBtn := (λ _, href) <$> whatsappBtn p; board := board p;
     navigator_clipboard := navigator_clipboard p;
     isSecureContext := isSecureContext p; writeText := writeText p;
     body_textareas := body_textareas p; prompts := prompts p |}.

Definition set_board (c : Clipboard) (p : Page) : Page :=
  {| share := share p; templatePreview := templatePreview p;
     whatsappBtn := whatsappBtn p; board := c;
     navigator_clipboard := navigator_clipboard p;
     isSecureContext := isSecureContext p; writeText := writeText p;
     body_textareas := body_textareas p; prompts := prompts p |}.

Definition set_body_textareas (f : list string → list string) (p : Page) : Page :=
  {| share := share p; templatePreview := templatePreview p;
     whatsappBtn := whatsappBtn p; board := board p;
     navigator_clipboard := navigator_clipboard p;
     isSecureContext := isSecureContext p; writeText := writeText p;
     body_textareas := f (body_textareas p); prompts := prompts p |}.

Definition log_prompt (message text : string) (p : Page) : Page :=
  {| share := share p; templatePreview := templatePreview p;
     whatsappBtn := whatsappBtn p; board := board p;
     navigator_clipboard := navigator_clipboard p;
     isSecureContext := isSecureContext p; writeText := writeText p;
     body_textareas := body_textareas p;
     prompts := prompts p ++ [(message, text)] |}.

Definition set_modalLinkInput (v : string) (s : Share.Page) : Share.Page :=
  {| Share.shareModal := Share.shareModal s;
     Share.modalLinkInput := (λ _, v) <$> Share.modalLinkInput s;
     Share.modalEmailInput := Share.modalEmailInput s;
     Share.btn := Share.btn s |}.

Definition set_modalEmailInput (v : string) (s : Share.Page) : Share.Page :=
  {| Share.shareModal := Share.shareModal s;
     Share.modalLinkInput := Share.modalLinkInput s;
     Share.modalEmailInput := (λ _, v) <$> Share.modalEmailInput s;
     Share.btn := Share.btn s |}.

(** A function of the share dialog, on the whole dashboard. *)
Definition on_share {A} (m : JS Share.Page A) : JS Page A := zoom share set_share m.

(** [classList.toggle(token)] *)
Definition classList_toggle (token : string) (cl : gset string) : gset string :=
  if decide (token ∈ cl) then cl ∖ {[ token ]} else cl ∪ {[ token ]}.

Definition toggleTemplate : JS Page unit :=
  update (set_templatePreview (classList_toggle "hidden")).

Definition whatsapp_href (link : string) : string :=
  "https://wa.me/?text=" +:+
  Uri.encodeURIComponent ("Please fill out this survey: " +:+ link).

Definition openShareModal (link : string) : JS Page unit :=
  p ← page;
  match Share.shareModal (share p), Share.modalLinkInput (share p) with
  | Some _, Some _ =>
      on_share (update (set_modalLinkInput (Js.strip_newlines link)));;
      on_share (update (set_modalEmailInput ""));;
      update (set_whatsappBtn (whatsapp_href link));;
      on_share (update (Share.set_shareModal (classList_remove {[ "hidden" ]})))
  | _, _ => mret tt
  end.

Definition closeShareModal : JS Page unit := on_share Share.closeShareModal.

Definition sendEmail : JS Page unit := on_share Share.sendEmail.

(** [window.prompt]; what the user answers is dropped. *)
Definition prompt (message text : string) : JS Page unit :=
  update (log_prompt message text).

(** The text area gives back [text] with its line breaks normalised, and
    that is what [select] selects. *)
Definition fallbackCopy (text : string) : JS Page unit :=
  let value := Js.normalize_newlines text in
  update (set_body_textareas (λ nodes, nodes ++ [value]));;
  p ← page;
  update (set_board (select value (board p)));;
  try_catch
    (p ← page;
     copied ← lift (execCommand (board p));
     update (set_board copied.2);;
     alert " Link copied!")
    (λ err, prompt "Copy link manually:" text);;
  update (set_body_textareas (removelast (A:=string))).

Definition robustCopy (text : string) : JS Page unit :=
  p ← page;
  if navigator_clipboard p && isSecureContext p then
    try_catch
      (match writeText p with
       | Some reason => throw reason
       | None => update (set_board (written text (board p)))
       end;;
       alert " Link copied to clipboard!")
      (λ _, fallbackCopy text)
  else fallbackCopy text.

Definition copyFromModal : JS Page unit :=
  p ← page;
  match Share.modalLinkInput (share p) with
  | Some link => robustCopy link
  | None => mret tt
  end.

(** [window.onclick]; [on_backdrop] says whether [event.target] is the
    element [shareModal] itself. *)
Definition window_onclick (on_backdrop : bool) : JS Page unit :=
  p ← page;
  match Share.shareModal (share p) with
  | Some _ => if on_backdrop then closeShareModal else mret tt
  | None => mret tt
  end.

(** What the user can do on the dashboard; after [TypeEmail email] the
    email input holds [email]. *)
Inductive Action :=
| ToggleTemplate
| OpenShare (link : string)
| TypeEmail (email : string)
| ClickSend
| ClickCopy
| ClickClose
| ClickWindow (on_backdrop : bool).

Global Instance Action_eq_dec : EqDecision Action.
Proof. solve_decision. Defined.

Definition handler (a : Action) : JS Page unit :=
  match a with
  | ToggleTemplate => toggleTemplate
  | OpenShare link => openShareModal link
  | TypeEmail email => on_share (update (set_modalEmailInput email))
  | ClickSend => sendEmail
  | ClickCopy => copyFromModal
  | ClickClose => closeShareModal
  | ClickWindow on_backdrop => window_onclick on_backdrop
  end.

End Dialog.

(** ** The flash messages of the dashboard *)

Module Flash.

(** An element of class [flash-msg]: the two inline styles the script
    writes, and whether the element is in the document. *)
Record Message := {
  opacity : string;
  transition : string;
  attached : bool
}.

(** The callbacks the script hands to [setTimeout]. [Remove node] is the
    closure over the [node]-th message. *)
Inductive Callback :=
| FadeAll
| Remove (node : nat).

(** The messages, the time of the last callback in milliseconds, and the
    pending timers with their due times, the next one to run first. *)
Record Page := {
  messages : list Message;
  now : nat;
  timers : list (nat * Callback)
}.

(** A timer runs after the pending ones that are due no later. *)
Fixpoint enqueue (due : nat) (callback : Callback)
    (queue : list (nat * Callback)) : list (nat * Callback) :=
  match queue with
  | [] => [(due, callback)]
  | (d, c) :: rest =>
      if decide (d ≤ due) then (d, c) :: enqueue due callback rest
      else (due, callback) :: queue
  end.

Definition setTimeout (callback : Callback) (delay : nat) (p : Page) : Page :=
  {| messages := messages p; now := now p;
     timers := enqueue (now p + delay) callback (timers p) |}.

Definition set_message (node : nat) (f : Message → Message) (p : Page) : Page :=
  {| messages := alter f node (messages p); now := now p; timers := timers p |}.

(** [document.querySelectorAll('.flash-msg')]: the messages that are in the
    document, in document order. *)
Definition querySelectorAll (p : Page) : list nat :=
  filter (λ node, attached <$> messages p !! node = Some true)
         (seq 0 (length (messages p))).

Definition fade (m : Message) : Message :=
  {| opacity := "0"; transition := "opacity 0.5s ease"; attached := attached m |}.

(** [alert.remove()] *)
Definition detach (m : Message) : Message :=
  {| opacity := opacity m; transition := transition m; attached := false |}.

(** The callback of the outer timer. *)
Definition fade_all (p : Page) : Page :=
  foldl (λ p node, setTimeout (Remove node) 500 (set_message node fade p))
        p (querySelectorAll p).

(** The callback of an inner timer. *)
Definition remove (node : nat) (p : Page) : Page := set_message node detach p.

(** The listener of [DOMContentLoaded]. *)
Definition DOMContentLoaded (p : Page) : Page := setTimeout FadeAll 2000 p.

(** The next pending timer runs, at its due time or, when that has passed,
    at once. *)
Definition fire (p : Page) : Page :=
  match timers p with
  | [] => p
  | (due, callback) :: rest =>
      let p := {| messages := messages p; now := now p `max` due;
                  timers := rest |} in
      match callback with
      | FadeAll => fade_all p
      | Remove node => remove node p
      end
  end.

End Flash.

(** ** What is observed of a page *)

(** What an upload can publish. *)
Definition published_part (p : Admin.Page)
  : Js.value * string * gset string * gset string :=
  (Admin.currentSurveyId p, Admin.shareLinkInput p, Admin.uploadScreen p,
   Admin.publishedScreen p).

(** The demo sheet is either hidden, without its layout classes and with
    the button offering to show it, or shown, with all of them and the
    button offering to hide it. *)
Definition sheet_coherent (p : Demo.Page) : Prop :=
  ("hidden" ∈ Demo.ExcelPage p ∧ Demo.layout ## Demo.ExcelPage p ∧
   Demo.toggleButton p = "Show Demo Excelsheet") ∨
  (("hidden" ∉ Demo.ExcelPage p) ∧ Demo.layout ⊆ Demo.ExcelPage p ∧
   Demo.toggleButton p = "Hide Demo Excelsheet").

(** A character that cannot end or split a query parameter: one that
    [encodeURIComponent] keeps, or ['%']. *)
Definition url_safe (c : Ascii.ascii) : bool :=
  Uri.unreserved c || Ascii.eqb c Uri.percent.

(** How many of the actions are clicks on Send. *)
Definition sends (actions : list Dialog.Action) : nat :=
  length (filter (λ a, a = Dialog.ClickSend) actions).

(** The addresses typed into the email input of the admin page, in order. *)
Definition typed (actions : list Admin.Action) : list string :=
  omap (λ a, match a with Admin.TypeEmail email => Some email | _ => None end)
       actions.

(** * Properties *)

(** Unfolds the monad so that a handler reduces on a given world. *)
Ltac js_unfold :=
  cbv [exec outcome run mbind mret JS_bind JS_ret bind ret throw try_catch
       finally page browser update update_browser lift fetch response_json
       alert console_error console_log set_location_href fst snd].

(** Runs a handler as far as it goes, splitting on what is left open. *)
Ltac js_case :=
  match goal with
  | |- context [match ?x with _ => _ end] =>
      lazymatch x with
      | context [match _ with _ => _ end] => fail
      | _ => destruct x eqn:?
      end
  end.

Ltac js_run := js_unfold; cbn; repeat (js_case; cbn); try done.

(** ** Strings *)

Section strings.

Lemma prefix_empty (s : string) : String.prefix "" s = true.
Proof. by destruct s. Qed.

Lemma includes_char (c : Ascii.ascii) (s : string) :
  Js.includes (String c "") s = true ↔ Spec.occurs c s.
Proof.
  unfold Spec.occurs. induction s as [|a s IH]; cbn.
  - split; [done | tauto].
  - destruct (Ascii.ascii_dec c a) as [->|Hne].
    + rewrite prefix_empty. cbn. tauto.
    + cbn. rewrite IH. split; [tauto | intros [?|?]; congruence || done].
Qed.

Lemma includes_at (s : string) :
  Js.includes "@" s = true ↔ Spec.occurs Spec.at_sign s.
Proof. apply includes_char. Qed.

Lemma truthy_string (s : string) : Js.truthy (Js.VStr s) = true ↔ s ≠ "".
Proof. cbn. destruct (String.eqb_spec s ""); naive_solver. Qed.

(** The guard of the email button is the specification's notion of an
    invalid address. *)
Lemma email_guard (email : string) :
  negb (Js.truthy (Js.VStr email)) || negb (Js.includes "@" email) = true
  ↔ Spec.invalid_email email.
Proof.
  unfold Spec.invalid_email. rewrite orb_true_iff, !negb_true_iff.
  rewrite <- !not_true_iff_false, truthy_string, includes_at.
  destruct (decide (email = "")); tauto.
Qed.

Lemma split_not_nil (sep : Ascii.ascii) (s : string) : Js.split sep s ≠ [].
Proof.
  induction s as [|c s IH]; cbn; [done|].
  destruct (Ascii.eqb c sep); [done|]. by destruct (Js.split sep s).
Qed.

Lemma split_free (sep : Ascii.ascii) (s : string) :
  ¬ Spec.occurs sep s → Js.split sep s = [s].
Proof.
  induction s as [|a s IH]; [done|]. cbn. intros Hfree.
  destruct (Ascii.eqb_spec a sep) as [->|Hne].
  - destruct Hfree. by left.
  - rewrite IH; [done|]. intros ?. apply Hfree. by right.
Qed.

(** A single segment is the whole string, and has no separator. *)
Lemma split_singleton (sep : Ascii.ascii) (s seg : string) :
  Js.split sep s = [seg] → s = seg ∧ ¬ Spec.occurs sep seg.
Proof.
  revert seg. induction s as [|c s IH]; intros seg; cbn.
  - intros [= <-]. split; [done | by intros []].
  - destruct (Ascii.eqb_spec c sep) as [->|Hne].
    + intros [= <- Hnil]. by apply split_not_nil in Hnil.
    + destruct (Js.split sep s) as [|seg0 segs] eqn:Hs;
        [by apply split_not_nil in Hs|].
      intros [= <- ->]. destruct (IH seg0 eq_refl) as [-> Hocc].
      split; [done|]. intros [?|?]; [congruence | done].
Qed.

(** The last element of [path.split('/')] is the last segment of [path]. *)
Lemma split_last (s : string) :
  ∃ seg, last (Js.split Js.slash s) = Some seg ∧ Spec.last_segment s seg.
Proof.
  induction s as [|c s (seg & Hlast & Hfree & Hshape)]; cbn.
  - exists "". split; [done|]. split; [by intros [] | by left].
  - destruct (Ascii.eqb_spec c Js.slash) as [->|Hne].
    + exists seg. rewrite last_cons, Hlast. split; [done|]. split; [done|].
      right. destruct Hshape as [->|[before ->]].
      * by exists "".
      * by exists (String Js.slash before).
    + destruct (Js.split Js.slash s) as [|seg0 [|seg1 segs]] eqn:Hs.
      * by apply split_not_nil in Hs.
      * apply split_singleton in Hs as [-> Hocc]. cbn in Hlast.
        injection Hlast as <-. exists (String c seg0). split; [done|].
        split; [|by left]. intros [?|?]; [congruence | done].
      * exists seg. split; [exact Hlast|]. split; [done|]. right.
        destruct Hshape as [->|[before ->]].
        -- apply split_free in Hfree. congruence.
        -- by exists (String c before).
Qed.

Lemma index_last (l : list string) (x : string) :
  last l = Some x → Js.index l (Z.of_nat (length l) - 1) = Js.VStr x.
Proof.
  intros Hlast. unfold Js.index. rewrite last_lookup in Hlast.
  destruct l as [|y l]; [done|]. cbn [length] in *.
  replace (Z.of_nat (S (length l)) - 1)%Z with (Z.of_nat (length l)) by lia.
  destruct (Z.ltb_spec (Z.of_nat (length l)) 0); [lia|].
  rewrite Nat2Z.id. cbn [pred] in Hlast. by rewrite Hlast.
Qed.

(** A number below [2 ^ 53] in size prints as its digits. *)
Lemma Number_toString_safe (n : Z) :
  (Z.abs n < 2 ^ 53)%Z → Js.Number_toString n = pretty n.
Proof.
  intros Hn. unfold Js.Number_toString, Js.nearest, Js.digits.
  destruct n as [|q|q]; [done| |].
  - destruct (Z.ltb_spec (Z.pos q) (2 ^ 53)); [|lia]. cbn [Z.eqb].
    by rewrite Z.mul_1_r.
  - change (- Z.neg q)%Z with (Z.pos q).
    destruct (Z.ltb_spec (Z.pos q) (2 ^ 53)); [|lia]. cbn [Z.eqb].
    by rewrite Z.mul_1_r.
Qed.

(** Larger numbers print as JavaScript prints the nearest double. *)
Lemma Number_toString_samples :
  Js.Number_toString (2 ^ 53 + 1) = "9007199254740992" ∧
  Js.Number_toString (2 ^ 60) = "1152921504606847000" ∧
  Js.Number_toString (2 ^ 64) = "18446744073709552000" ∧
  Js.Number_toString (10 ^ 21 - 1) = "1e+21" ∧
  Js.Number_toString (10 ^ 21) = "1e+21" ∧
  Js.Number_toString (2 ^ 70) = "1.1805916207174113e+21" ∧
  Js.Number_toString (- 2 ^ 70) = "-1.1805916207174113e+21" ∧
  Js.Number_toString (2 ^ 1024) = "Infinity".
Proof. by vm_compute. Qed.

Lemma strip_newlines_spec (s : string) :
  Spec.without_line_breaks s (Js.strip_newlines s).
Proof.
  unfold Spec.without_line_breaks. induction s as [|c s IH]; [done|].
  cbn [Js.strip_newlines String.list_ascii_of_string].
  destruct (Ascii.eqb_spec c Js.LF) as [->|Hlf]; cbn [orb].
  - rewrite filter_cons_False; [done|]. tauto.
  - destruct (Ascii.eqb_spec c Js.CR) as [->|Hcr].
    + rewrite filter_cons_False; [done|]. tauto.
    + rewrite filter_cons_True by done. cbn. by rewrite IH.
Qed.

Lemma strip_newlines_single_line (s : string) :
  Spec.single_line s → Js.strip_newlines s = s.
Proof.
  unfold Spec.single_line, Spec.occurs. induction s as [|c s IH]; [done|].
  cbn [Js.strip_newlines String.list_ascii_of_string In]. intros [Hlf Hcr].
  destruct (Ascii.eqb_spec c Js.LF) as [->|_]; [tauto|].
  destruct (Ascii.eqb_spec c Js.CR) as [->|_]; [tauto|].
  cbn. f_equal. apply IH. tauto.
Qed.

Lemma normalize_newlines_without_CR (s : string) :
  ¬ Spec.occurs Js.CR s → Js.normalize_newlines s = s.
Proof.
  unfold Spec.occurs. induction s as [|c s IH]; [done|].
  cbn [Js.normalize_newlines String.list_ascii_of_string In]. intros Hcr.
  destruct (Ascii.eqb_spec c Js.CR) as [->|_]; [tauto|].
  f_equal. apply IH. tauto.
Qed.

Lemma normalize_newlines_no_CR (s : string) :
  ¬ Spec.occurs Js.CR (Js.normalize_newlines s).
Proof.
  unfold Spec.occurs.
  assert (H : ∀ n s, String.length s ≤ n →
                ¬ In Js.CR (String.list_ascii_of_string (Js.normalize_newlines s))).
  { clear s. induction n as [|n IH]; intros [|c s] Hn; cbn in Hn; try lia;
      [by intros [] | by intros []|].
    cbn [Js.normalize_newlines].
    destruct (Ascii.eqb_spec c Js.CR) as [->|Hc].
    - cbn [String.list_ascii_of_string In]. intros [Hlf|Hin]; [done|].
      destruct s as [|c' s]; [done|]. cbn in Hn.
      destruct (Ascii.eqb c' Js.LF); revert Hin; apply IH; cbn; lia.
    - cbn [String.list_ascii_of_string In]. intros [Heq|Hin]; [done|].
      revert Hin. apply IH. lia. }
  by apply (H (String.length s)).
Qed.

Lemma strip_newlines_idemp (s : string) :
  Js.strip_newlines (Js.strip_newlines s) = Js.strip_newlines s.
Proof.
  induction s as [|c s IH]; [done|]. cbn [Js.strip_newlines].
  destruct (Ascii.eqb c Js.LF || Ascii.eqb c Js.CR) eqn:E; [done|].
  cbn [Js.strip_newlines]. by rewrite E, IH.
Qed.

End strings.

(** ** Counting requests *)

Section fetch_count.

Context {P : Type}.
Implicit Types (n : nat).

Local Ltac silent := intros w; exists []; by rewrite app_nil_r.

Lemma fetches_ret {A} (a : A) : Spec.fetches_at_most (P:=P) 0 (mret a).
Proof. silent. Qed.

Lemma fetches_throw {A} e : Spec.fetches_at_most (P:=P) (A:=A) 0 (throw e).
Proof. silent. Qed.

Lemma fetches_lift {A} (r : Js.exn + A) : Spec.fetches_at_most (P:=P) 0 (lift r).
Proof. destruct r; [apply fetches_throw | apply fetches_ret]. Qed.

Lemma fetches_page : Spec.fetches_at_most (P:=P) 0 page.
Proof. silent. Qed.

Lemma fetches_browser : Spec.fetches_at_most (P:=P) 0 browser.
Proof. silent. Qed.

Lemma fetches_update (f : P → P) : Spec.fetches_at_most 0 (update f).
Proof. silent. Qed.

Lemma fetches_alert s : Spec.fetches_at_most (P:=P) 0 (alert s).
Proof. silent. Qed.

Lemma fetches_console_error s : Spec.fetches_at_most (P:=P) 0 (console_error s).
Proof. silent. Qed.

Lemma fetches_console_log s : Spec.fetches_at_most (P:=P) 0 (console_log s).
Proof. silent. Qed.

Lemma fetches_set_location_href s :
  Spec.fetches_at_most (P:=P) 0 (set_location_href s).
Proof. silent. Qed.

Lemma fetches_response_json r : Spec.fetches_at_most (P:=P) 0 (response_json r).
Proof.
  unfold response_json.
  destruct (json r); [apply fetches_ret | apply fetches_throw].
Qed.

Lemma fetches_fetch r : Spec.fetches_at_most (P:=P) 1 (fetch r).
Proof.
  intros w. exists [r]. unfold exec, fetch.
  by destruct (net w.1 (length (sent w.1))).
Qed.

Lemma fetches_bind {A B} n1 n2 (m : JS P A) (k : A → JS P B) :
  Spec.fetches_at_most n1 m → (∀ a, Spec.fetches_at_most n2 (k a)) →
  Spec.fetches_at_most (n1 + n2) (m ≫= k).
Proof.
  intros Hm Hk w. destruct (Hm w) as (l1 & E1 & L1).
  unfold exec, mbind, JS_bind, bind in *.
  destruct (m w) as [[a|e] w1]; cbn in *.
  - destruct (Hk a w1) as (l2 & E2 & L2). unfold exec in E2.
    exists (l1 ++ l2).
    rewrite E2, E1, length_app, (assoc_L _). split; [done | lia].
  - exists l1. split; [done | lia].
Qed.

Lemma fetches_try_catch {A} n1 n2 (m : JS P A) (h : Js.exn → JS P A) :
  Spec.fetches_at_most n1 m → (∀ e, Spec.fetches_at_most n2 (h e)) →
  Spec.fetches_at_most (n1 + n2) (try_catch m h).
Proof.
  intros Hm Hh w. destruct (Hm w) as (l1 & E1 & L1).
  unfold exec, try_catch in *. destruct (m w) as [[a|e] w1]; cbn in *.
  - exists l1. split; [done | lia].
  - destruct (Hh e w1) as (l2 & E2 & L2). unfold exec in E2.
    exists (l1 ++ l2).
    rewrite E2, E1, length_app, (assoc_L _). split; [done | lia].
Qed.

Lemma fetches_finally {A} n1 n2 (m : JS P A) (f : JS P unit) :
  Spec.fetches_at_most n1 m → Spec.fetches_at_most n2 f →
  Spec.fetches_at_most (n1 + n2) (finally m f).
Proof.
  intros Hm Hf w. destruct (Hm w) as (l1 & E1 & L1).
  unfold exec, finally in *. destruct (m w) as [r w1]; cbn in *.
  destruct (Hf w1) as (l2 & E2 & L2). unfold exec in E2.
  exists (l1 ++ l2).
  destruct (f w1) as [[[]|e] w2]; cbn in *;
    rewrite E2, E1, length_app, (assoc_L _); (split; [done | lia]).
Qed.

Lemma fetches_if {A} n1 n2 (c : bool) (m1 m2 : JS P A) :
  Spec.fetches_at_most n1 m1 → Spec.fetches_at_most n2 m2 →
  Spec.fetches_at_most (n1 `max` n2) (if c then m1 else m2).
Proof.
  intros H1 H2 w.
  destruct c; [destruct (H1 w) as (l & E & L) | destruct (H2 w) as (l & E & L)];
    exists l; (split; [done | lia]).
Qed.

Lemma fetches_mono {A} n n' (m : JS P A) :
  Spec.fetches_at_most n m → n ≤ n' → Spec.fetches_at_most n' m.
Proof.
  intros H Hle w. destruct (H w) as (l & E & L). exists l. split; [done | lia].
Qed.

(** A sequence of user actions makes no more requests than its handlers
    do one by one. *)
Lemma fetches_dispatch n (actions : list (JS P unit)) :
  Forall (Spec.fetches_at_most n) actions →
  Spec.fetches_at_most (length actions * n) (dispatch actions).
Proof.
  induction 1 as [|h rest Hh _ IH]; [silent|].
  intros w. destruct (Hh w) as (l1 & E1 & L1).
  destruct (IH (exec h w)) as (l2 & E2 & L2).
  exists (l1 ++ l2). cbn [dispatch length]. unfold exec in *.
  rewrite E2, E1, length_app, (assoc_L _). split; [done | lia].
Qed.

End fetch_count.

Lemma form_reset_fetches : Spec.fetches_at_most 0 Survey.form_reset.
Proof.
  intros [b p]. exists []. unfold Survey.form_reset. js_unfold. cbn.
  destruct (Survey.named "reset" (Survey.surveyForm p)); cbn;
    by rewrite app_nil_r.
Qed.

(** Walks through a handler, adding up the bounds of its parts. *)
Ltac count_fetches :=
  repeat first
    [ apply fetches_ret | apply fetches_throw | apply fetches_lift
    | apply form_reset_fetches
    | apply fetches_page | apply fetches_browser | apply fetches_update
    | apply fetches_alert | apply fetches_console_error
    | apply fetches_console_log | apply fetches_set_location_href
    | apply fetches_response_json | apply fetches_fetch
    | eapply fetches_bind; [|intros ?]
    | eapply fetches_try_catch; [|intros ?]
    | eapply fetches_finally
    | eapply fetches_if ].

Ltac bound_fetches := eapply fetches_mono; [count_fetches | cbn; lia].

Section handlers_fetch_once.

Lemma fileInput_change_fetches files :
  Spec.fetches_at_most 1 (Admin.fileInput_change files).
Proof.
  unfold Admin.fileInput_change, Admin.showModal.
  destruct (files !! 0); bound_fetches.
Qed.

Lemma emailButton_click_fetches : Spec.fetches_at_most 1 Admin.emailButton_click.
Proof. unfold Admin.emailButton_click, Admin.showModal. bound_fetches. Qed.

Lemma downloadButton_click_fetches :
  Spec.fetches_at_most 0 Admin.downloadButton_click.
Proof. unfold Admin.downloadButton_click, Admin.showModal. bound_fetches. Qed.

Lemma closeModalButton_click_fetches :
  Spec.fetches_at_most 0 Admin.closeModalButton_click.
Proof. unfold Admin.closeModalButton_click, Admin.hideModal. bound_fetches. Qed.

Lemma surveyForm_submit_fetches :
  Spec.fetches_at_most 1 Survey.surveyForm_submit.
Proof. unfold Survey.surveyForm_submit. bound_fetches. Qed.

Lemma sendEmail_fetches : Spec.fetches_at_most 1 Share.sendEmail.
Proof.
  unfold Share.sendEmail, Share.closeShareModal, Share.value_of.
  eapply fetches_mono.
  - eapply fetches_bind; [count_fetches|intros p].
    eapply fetches_bind;
      [destruct (Share.modalEmailInput p); count_fetches|intros email].
    eapply fetches_bind;
      [destruct (Share.modalLinkInput p); count_fetches|intros link].
    count_fetches.
  - cbn; lia.
Qed.

Lemma admin_handler_fetches (a : Admin.Action) :
  Spec.fetches_at_most 1 (Admin.handler a).
Proof.
  destruct a; cbn [Admin.handler].
  - apply fileInput_change_fetches.
  - eapply fetches_mono; [apply fetches_update | lia].
  - apply emailButton_click_fetches.
  - eapply fetches_mono; [apply downloadButton_click_fetches | lia].
  - eapply fetches_mono; [apply closeModalButton_click_fetches | lia].
Qed.

End handlers_fetch_once.

(** C7: no request path retries. Each handler that talks to the server (file
    selection, either email-share click, form submission) calls [fetch] at
    most once per run, whatever the server answers or fails to answer; and
    over any sequence of user actions on the admin page, or of submissions
    of the survey form, or of clicks on Send, the requests made never
    outnumber the actions: a request past the first needs another action of
    the user. *)
Theorem no_request_is_retried :
  (∀ files, Spec.fetches_at_most 1 (Admin.fileInput_change files)) ∧
  Spec.fetches_at_most 1 Admin.emailButton_click ∧
  Spec.fetches_at_most 1 Share.sendEmail ∧
  Spec.fetches_at_most 1 Survey.surveyForm_submit ∧
  (∀ actions : list Admin.Action,
     Spec.fetches_at_most (length actions) (dispatch (Admin.handler <$> actions))) ∧
  (∀ n, Spec.fetches_at_most n (dispatch (replicate n Survey.surveyForm_submit))) ∧
  (∀ n, Spec.fetches_at_most n (dispatch (replicate n Share.sendEmail))).
Proof.
  split_and!.
  - apply fileInput_change_fetches.
  - apply emailButton_click_fetches.
  - apply sendEmail_fetches.
  - apply surveyForm_submit_fetches.
  - intros actions. eapply fetches_mono.
    + apply (fetches_dispatch 1), Forall_fmap, Forall_forall.
      intros a _. apply admin_handler_fetches.
    + rewrite length_fmap. lia.
  - intros n. eapply fetches_mono.
    + apply (fetches_dispatch 1), Forall_replicate, surveyForm_submit_fetches.
    + rewrite length_replicate. lia.
  - intros n. eapply fetches_mono.
    + apply (fetches_dispatch 1), Forall_replicate, sendEmail_fetches.
    + rewrite length_replicate. lia.
Qed.


(** ** Upload *)

Section upload.

Variables (b : Browser) (p : Admin.Page) (file : File) (rest : list File).

Let w' := exec (Admin.fileInput_change (file :: rest)) (b, p).

(** Whatever the server does, choosing a file posts it, once, and the
    handler touches neither dialogs nor location. *)
Lemma upload_sends :
  sent w'.1 = sent b ++ [Admin.upload_request file] ∧
  alerts w'.1 = alerts b ∧
  navigations w'.1 = navigations b.
Proof using Type*.
  subst w'. unfold Admin.fileInput_change, Admin.showModal.
  cbn [lookup list_lookup]. js_run.
Qed.

Lemma upload_ok (props : gmap string Js.value) (link : string) :
  net b (length (sent b))
    = Responds {| ok := true; json := Some (Js.VObj props) |} →
  Js.inputValue (default Js.VUndefined (props !! "survey_url")) = inr link →
  w'.2 =
    Admin.shown "Success!" "Your form has been published."
      (Admin.set_publishedScreen (classList_remove {[ "hidden" ]})
         (Admin.set_uploadScreen (classList_add {[ "hidden" ]})
            (Admin.set_shareLinkInput link
               (Admin.set_currentSurveyId
                  (default Js.VUndefined (props !! "survey_id")) p)))).
Proof using Type*.
  intros Hnet Hlink. subst w'. unfold Admin.fileInput_change, Admin.showModal.
  cbn [lookup list_lookup]. js_unfold. rewrite Hnet. cbn. by rewrite Hlink.
Qed.

(** A response whose body cannot be read returns neither id nor URL: the
    handler is in its catch block before it looks at [ok]. *)
Lemma upload_unreadable (r : Response) :
  net b (length (sent b)) = Responds r →
  json r = None →
  w'.2 = Admin.shown "Error" "Could not connect to the server." p.
Proof using Type*.
  intros Hnet Hjson. subst w'. unfold Admin.fileInput_change, Admin.showModal.
  cbn [lookup list_lookup]. js_unfold. by rewrite Hnet, Hjson.
Qed.

(** A response that is not ok leaves the page as it was, but for the
    modal. *)
Lemma upload_not_ok (r : Response) :
  net b (length (sent b)) = Responds r →
  ok r = false →
  ∃ title message,
    w'.2 = Admin.shown title message p ∧
    (title = "Upload Failed" ∨ title = "Error").
Proof using Type*.
  intros Hnet Hok. subst w'.
  unfold Admin.fileInput_change, Admin.showModal, Admin.shown.
  cbn [lookup list_lookup]. js_unfold. rewrite Hnet.
  destruct r as [o result]; cbn in Hok; subst o. cbn.
  repeat (js_case; cbn); eauto.
Qed.

End upload.

(** A change event without a file does nothing at all. *)
Lemma upload_without_file (w : Browser * Admin.Page) :
  run (Admin.fileInput_change []) w = (Ok tt, w).
Proof. done. Qed.

(** The current survey id is written by nothing but an upload that the
    server answered with ok and a body that could be read: every other run
    of a handler of the page leaves it as it was. *)
Lemma currentSurveyId_written_by_upload (a : Admin.Action) (b : Browser)
    (p : Admin.Page) :
  let w' := exec (Admin.handler a) (b, p) in
  Admin.currentSurveyId w'.2 = Admin.currentSurveyId p ∨
  ∃ files r result,
    a = Admin.ChooseFiles files ∧
    net b (length (sent b)) = Responds r ∧
    ok r = true ∧
    json r = Some result ∧
    Js.get result "survey_id" = inr (Admin.currentSurveyId w'.2).
Proof.
  destruct a as [[|file rest]| | | |]; cbn [Admin.handler]; try by left.
  - unfold Admin.fileInput_change, Admin.showModal. cbn [lookup list_lookup].
    js_unfold.
    destruct (net b (length (sent b))) as [|[o [result|]]] eqn:Hnet;
      cbn; [by left | | by left].
    destruct o; cbn.
    + destruct (Js.get result "survey_id") as [e|id] eqn:Hid; cbn; [by left|].
      right. exists (file :: rest), {| ok := true; json := Some result |}, result.
      split_and!; try done. repeat (js_case; cbn); done.
    + left. repeat (js_case; cbn); done.
  - left. unfold Admin.emailButton_click, Admin.showModal. js_run.
  - left. unfold Admin.downloadButton_click, Admin.showModal. js_run.
Qed.

(** A modal that has just been shown is in view, whatever was on the page. *)
Lemma shown_in_view (title message : string) (p : Admin.Page) :
  Admin.successModal (Admin.shown title message p) ## Admin.modal_hiding.
Proof. cbn. unfold classList_remove. by apply disjoint_difference_l1. Qed.

(** Closing the modal puts it back out of view. *)
Lemma closed_out_of_view (w : Browser * Admin.Page) :
  Admin.modal_hiding ⊆ Admin.successModal (exec Admin.closeModalButton_click w).2.
Proof. cbn. unfold classList_add. apply union_subseteq_r. Qed.

(** C3, as stated, fails on a URL that holds a line break: the share-link
    input is a text input, which drops the line breaks of what is assigned
    to it, so that after the upload it does not hold the [survey_url] that
    the server returned. *)
Lemma upload_drops_line_break :
  let survey_url := "http://h/survey/a" +:+ String Js.LF "b" in
  let b := Sample.browser_on "/"
             (Responds {| ok := true;
                          json := Some (Js.VObj {[ "survey_id" := Js.VStr "ab";
                                                   "survey_url" := Js.VStr survey_url ]}) |}) in
  let w' := exec (Admin.fileInput_change [Sample.sheet]) (b, Sample.admin "") in
  Admin.shareLinkInput w'.2 = "http://h/survey/ab" ∧
  Admin.shareLinkInput w'.2 ≠ survey_url.
Proof. by vm_compute. Qed.

(** C3, amended: a chosen file is posted to /upload as the multipart field
    [surveyFile] (the handler sends [files[0]]), in one request, whatever the
    answer. When the answer is ok and carries an object with the URL of the
    survey, the [survey_id] of that object becomes the current survey id,
    the share-link input holds its [survey_url] without the line breaks,
    which is the [survey_url] itself when it is of one line, the upload
    screen gets the class [hidden] and the published screen loses it. *)
Theorem upload_publishes (b : Browser) (p : Admin.Page) (file : File)
    (rest : list File) :
  let w' := exec (Admin.fileInput_change (file :: rest)) (b, p) in
  sent w'.1 =
    sent b ++ [{| url := "/upload"; method := POST; headers := [];
                  body := FormDataBody [("surveyFile", file)] |}] ∧
  ∀ (props : gmap string Js.value) (survey_url : string),
    net b (length (sent b))
      = Responds {| ok := true; json := Some (Js.VObj props) |} →
    props !! "survey_url" = Some (Js.VStr survey_url) →
    Admin.currentSurveyId w'.2 = default Js.VUndefined (props !! "survey_id") ∧
    Spec.without_line_breaks survey_url (Admin.shareLinkInput w'.2) ∧
    (Spec.single_line survey_url → Admin.shareLinkInput w'.2 = survey_url) ∧
    Admin.uploadScreen w'.2 = Admin.uploadScreen p ∪ {[ "hidden" ]} ∧
    Admin.publishedScreen w'.2 = Admin.publishedScreen p ∖ {[ "hidden" ]} ∧
    "hidden" ∈ Admin.uploadScreen w'.2 ∧
    "hidden" ∉ Admin.publishedScreen w'.2.
Proof.
  intros w'. split; [apply upload_sends|].
  intros props survey_url Hnet Hurl. subst w'.
  rewrite (upload_ok b p file rest props (Js.strip_newlines survey_url) Hnet)
    by by rewrite Hurl.
  cbn. unfold classList_add, classList_remove. split_and!; try done.
  - apply strip_newlines_spec.
  - apply strip_newlines_single_line.
  - apply elem_of_union_r. by apply elem_of_singleton.
  - apply not_elem_of_difference. right. by apply elem_of_singleton.
Qed.

Lemma upload_publishes_witness :
  let b := Sample.browser_on "/"
             (Responds {| ok := true; json := Some (Js.VObj Sample.published) |}) in
  let w' := exec (Admin.fileInput_change [Sample.sheet]) (b, Sample.admin "") in
  Admin.currentSurveyId w'.2 = Js.VStr "abc-123" ∧
  Admin.shareLinkInput w'.2 = "http://127.0.0.1:5000/survey/abc-123" ∧
  "hidden" ∈ Admin.uploadScreen w'.2 ∧
  "hidden" ∉ Admin.publishedScreen w'.2.
Proof.
  intros b w'.
  destruct (upload_publishes b (Sample.admin "") Sample.sheet []) as [_ H].
  destruct (H Sample.published "http://127.0.0.1:5000/survey/abc-123"
              eq_refl eq_refl) as (H1 & _ & H2 & _ & _ & H5 & H6).
  split_and!; [exact H1 | | exact H5 | exact H6].
  apply H2. split; vm_compute; intros H'; decompose [or] H'; done.
Defined.

(** C4: when /upload answers with a response that is not ok, the current
    survey id, the share-link input and both screens are what they were:
    the page differs from the old one only by the modal, which is in view
    with the title [Upload Failed] (or [Error], when the answer could not be
    read or printed); no dialog opens and the browser does not navigate. *)
Theorem upload_error_keeps_state (b : Browser) (p : Admin.Page) (file : File)
    (rest : list File) (r : Response) :
  net b (length (sent b)) = Responds r →
  ok r = false →
  let w' := exec (Admin.fileInput_change (file :: rest)) (b, p) in
  Admin.currentSurveyId w'.2 = Admin.currentSurveyId p ∧
  Admin.shareLinkInput w'.2 = Admin.shareLinkInput p ∧
  Admin.uploadScreen w'.2 = Admin.uploadScreen p ∧
  Admin.publishedScreen w'.2 = Admin.publishedScreen p ∧
  alerts w'.1 = alerts b ∧
  navigations w'.1 = navigations b ∧
  Admin.successModal w'.2 ## Admin.modal_hiding ∧
  ∃ title message,
    w'.2 = Admin.shown title message p ∧
    (title = "Upload Failed" ∨ title = "Error").
Proof.
  intros Hnet Hok w'.
  destruct (upload_not_ok b p file rest r Hnet Hok) as (title & message & E & Ht).
  destruct (upload_sends b p file rest) as (_ & Ha & Hn).
  subst w'. rewrite E. split_and!; try done.
  - apply shown_in_view.
  - eauto.
Qed.

Lemma upload_error_keeps_state_witness :
  let b := Sample.browser_on "/" (Responds (Sample.failure "Not a spreadsheet")) in
  let p := Admin.set_currentSurveyId (Js.VStr "abc-123") (Sample.admin "") in
  let w' := exec (Admin.fileInput_change [Sample.sheet]) (b, p) in
  Admin.currentSurveyId w'.2 = Js.VStr "abc-123" ∧
  Admin.shareLinkInput w'.2 = "" ∧
  Admin.uploadScreen w'.2 = ∅ ∧
  Admin.publishedScreen w'.2 = {[ "hidden" ]}.
Proof.
  intros b p w'.
  destruct (upload_error_keeps_state b p Sample.sheet []
              (Sample.failure "Not a spreadsheet") eq_refl eq_refl)
    as (H1 & H2 & H3 & H4 & _).
  split_and!; [exact H1 | exact H2 | exact H3 | exact H4].
Defined.

(** ** Download *)


Lemma download_present (b : Browser) (p : Admin.Page) (id : string) :
  Js.truthy (Admin.currentSurveyId p) = true →
  Js.ToString (Admin.currentSurveyId p) = inr id →
  run Admin.downloadButton_click (b, p) =
    (Ok tt, (log_navigation ("/download/" +:+ id) b, p)).
Proof.
  intros Hid Hprint. unfold Admin.downloadButton_click, Admin.showModal.
  js_unfold. by rewrite Hid, Hprint.
Qed.


Lemma exec_dispatch_cons {P} (h : JS P unit) (rest : list (JS P unit)) w :
  exec (dispatch (h :: rest)) w = exec (dispatch rest) (exec h w).
Proof. done. Qed.

Lemma exec_dispatch_nil {P} (w : Browser * P) : exec (dispatch []) w = w.
Proof. done. Qed.

(** The id that an upload has stored is the one a later click downloads. *)
Lemma download_after_upload (b : Browser) (p : Admin.Page) (file : File)
    (rest : list File) (props : gmap string Js.value) (id link : string) :
  net b (length (sent b))
    = Responds {| ok := true; json := Some (Js.VObj props) |} →
  props !! "survey_id" = Some (Js.VStr id) →
  props !! "survey_url" = Some (Js.VStr link) →
  id ≠ "" →
  navigations
    (exec (dispatch [Admin.fileInput_change (file :: rest);
                     Admin.downloadButton_click]) (b, p)).1 =
    navigations b ++ ["/download/" +:+ id].
Proof.
  intros Hnet Hid Hlink Hne%truthy_string.
  rewrite !exec_dispatch_cons, exec_dispatch_nil.
  destruct (upload_sends b p file rest) as (_ & _ & Hnav).
  destruct (exec (Admin.fileInput_change (file :: rest)) (b, p))
    as [b1 p1] eqn:Hup.
  assert (Hp1 : Admin.currentSurveyId p1 = Js.VStr id).
  { change p1 with (b1, p1).2. rewrite <- Hup.
    rewrite (upload_ok b p file rest props (Js.strip_newlines link) Hnet)
      by by rewrite Hlink.
    cbn. by rewrite Hid. }
  cbn in Hnav. unfold exec. fold (run Admin.downloadButton_click (b1, p1)).
  rewrite (download_present b1 p1 id); [by rewrite <- Hnav | by rewrite Hp1..].
Qed.



(** ** Share by email *)

(** The email button of the admin page refuses an invalid address before any
    request: the modal shows the error and the world is otherwise as it
    was. *)
Lemma emailButton_rejects (b : Browser) (p : Admin.Page) :
  Spec.invalid_email (Admin.shareEmailInput p) →
  run Admin.emailButton_click (b, p) =
    (Ok tt, (b, Admin.shown "Error" "Please enter a valid email address." p)).
Proof.
  intros Hbad%email_guard. unfold Admin.emailButton_click, Admin.showModal.
  js_unfold. by rewrite Hbad.
Qed.

(** And it posts a valid one, with the link, once. *)
Lemma emailButton_sends (b : Browser) (p : Admin.Page) :
  ¬ Spec.invalid_email (Admin.shareEmailInput p) →
  sent (exec Admin.emailButton_click (b, p)).1 =
    sent b ++ [Admin.share_request (Admin.shareEmailInput p) (Admin.shareLinkInput p)].
Proof.
  rewrite <- email_guard, not_true_iff_false. intros Hgood.
  unfold Admin.emailButton_click, Admin.showModal. js_unfold. rewrite Hgood.
  cbn. repeat (js_case; cbn); done.
Qed.

(** So the email button sends a request only for a valid address. *)
Lemma emailButton_sends_only_valid (b : Browser) (p : Admin.Page) :
  sent (exec Admin.emailButton_click (b, p)).1 ≠ sent b →
  ¬ Spec.invalid_email (Admin.shareEmailInput p).
Proof.
  intros Hsent Hbad. unfold exec in Hsent.
  fold (run Admin.emailButton_click (b, p)) in Hsent.
  by rewrite (emailButton_rejects b p Hbad) in Hsent.
Qed.

(** [sendEmail] of the share dialog refuses the empty address. *)
Lemma sendEmail_rejects_empty (b : Browser) (p : Share.Page) (link : string) :
  Share.modalEmailInput p = Some "" →
  Share.modalLinkInput p = Some link →
  run Share.sendEmail (b, p) =
    (Ok tt, (log_alert "Please enter an email address" b, p)).
Proof.
  intros He Hl. unfold Share.sendEmail, Share.value_of. js_unfold.
  by rewrite He, Hl.
Qed.

(** It posts any other address, with the link, once. *)
Lemma sendEmail_sends (b : Browser) (p : Share.Page) (email link : string) :
  Share.modalEmailInput p = Some email →
  Share.modalLinkInput p = Some link →
  email ≠ "" →
  sent (exec Share.sendEmail (b, p)).1 = sent b ++ [Share.share_request email link].
Proof.
  intros He Hl Hne%truthy_string.
  unfold Share.sendEmail, Share.closeShareModal, Share.value_of. js_unfold.
  rewrite He, Hl. cbn [negb]. rewrite Hne. cbn.
  repeat (js_case; cbn); done.
Qed.

(** C1: a click on share-by-email with an address that is empty or has no
    ['@'] must show an error and send nothing. The email button of the admin
    page does so ([emailButton_rejects]); this is the input where the code
    departs from the claim: [sendEmail] of the share dialog, given the
    address [abc], which has no ['@'], posts it to /share_email whatever
    the server does. *)
Theorem sendEmail_posts_address_without_at :
  Spec.invalid_email "abc" ∧
  ∀ o : FetchOutcome,
    sent (exec Share.sendEmail (Sample.browser_on "/dashboard" o, Sample.share "abc")).1 =
      [{| url := "/share_email"; method := POST;
          headers := [("Content-Type", "application/json")];
          body := JsonBody {[ "email" := "abc";
                              "link" := "http://127.0.0.1:5000/survey/abc-123" ]} |}].
Proof.
  split.
  - right. unfold Spec.occurs. cbn. intros [H|[H|[H|[]]]]; discriminate H.
  - intros o.
    by rewrite (sendEmail_sends _ _ "abc" "http://127.0.0.1:5000/survey/abc-123").
Qed.

(** ** The survey id *)

Lemma occurs_app_slash (before seg : string) :
  Spec.occurs Js.slash (before +:+ String Js.slash seg).
Proof.
  unfold Spec.occurs. induction before as [|c before IH]; cbn; [by left | by right].
Qed.

(** The last element of [path.split('/')] is the only last segment. *)
Lemma last_segment_split (path seg : string) :
  Spec.last_segment path seg ↔ last (Js.split Js.slash path) = Some seg.
Proof.
  split.
  - intros [Hfree [->|[before ->]]]; [by rewrite split_free|].
    induction before as [|c before IH].
    + change (last (Js.split Js.slash (String Js.slash seg)) = Some seg).
      cbn [Js.split]. by rewrite Ascii.eqb_refl, split_free.
    + change (last (Js.split Js.slash
                      (String c (before +:+ String Js.slash seg))) = Some seg).
      cbn [Js.split]. destruct (Ascii.eqb_spec c Js.slash) as [->|Hne].
      * by rewrite last_cons, IH.
      * destruct (Js.split _ (before +:+ _)) as [|seg0 [|seg1 segs]] eqn:Hs.
        -- done.
        -- apply split_singleton in Hs as [Hs Hocc]. destruct Hocc.
           rewrite <- Hs. apply occurs_app_slash.
        -- exact IH.
  - intros Hlast. destruct (split_last path) as (seg' & Hlast' & Hseg).
    congruence.
Qed.

Lemma last_segment_unique (path seg1 seg2 : string) :
  Spec.last_segment path seg1 → Spec.last_segment path seg2 → seg1 = seg2.
Proof. rewrite !last_segment_split. congruence. Qed.

(** ** Submission *)

Section submit.

Variables (b : Browser) (p : Survey.Page) (sid : string).
Hypothesis Hsid : Spec.last_segment (pathname b) sid.

Let request : Request :=
  Survey.submit_request sid
    (Survey.to_object (Survey.FormData (Survey.surveyForm p))).
Let posted : Browser := log_sent request (log_console "Submitting form data:" b).
Let caught : Browser * Survey.Page :=
  (log_alert "An error occurred while submitting the form."
     (log_console "Submission error:" posted), p).
Let opened : Survey.Page :=
  Survey.set_successModal (classList_remove {[ "hidden" ]}) p.

(** Without a survey id in the path nothing is sent. *)
Lemma submit_without_id :
  sid = "" →
  run Survey.surveyForm_submit (b, p) =
    (Ok tt, (log_alert "Error: Cannot submit form without a survey ID."
               (log_console "Survey ID not found in URL!" b), p)).
Proof using Hsid.
  intros ->. apply last_segment_split, index_last in Hsid.
  unfold Survey.surveyForm_submit. js_unfold. by rewrite Hsid.
Qed.

(** With one, the handler posts the form once and then follows the answer. *)
Lemma submit_with_id :
  sid ≠ "" →
  run Survey.surveyForm_submit (b, p) =
    match net b (length (sent b)) with
    | NetFail => (Ok tt, caught)
    | Responds r =>
        match json r with
        | None => (Ok tt, caught)
        | Some result =>
            if ok r then
              match Survey.named "reset" (Survey.surveyForm p) with
              | [] =>
                  (Ok tt,
                   (posted,
                    Survey.set_surveyForm Survey.disable_elements
                      (Survey.set_surveyForm (fmap Survey.reset_control) opened)))
              | _ => (Ok tt, (caught.1, opened))
              end
            else
              match Js.get result "error" with
              | inl _ => (Ok tt, caught)
              | inr error =>
                  match
                    Js.ToString (Js.or error (Js.VStr "Could not submit survey."))
                  with
                  | inl _ => (Ok tt, caught)
                  | inr text => (Ok tt, (log_alert ("Error: " +:+ text) posted, p))
                  end
              end
        end
    end.
Proof using Hsid.
  intros Hne%truthy_string. apply last_segment_split, index_last in Hsid.
  unfold Survey.surveyForm_submit, Survey.form_reset. js_unfold.
  rewrite Hsid, Hne. cbn. repeat (js_case; cbn); done.
Qed.

Lemma submit_sends :
  sid ≠ "" → sent (exec Survey.surveyForm_submit (b, p)).1 = sent b ++ [request].
Proof using Hsid.
  intros Hne. unfold exec. fold (run Survey.surveyForm_submit (b, p)).
  rewrite (submit_with_id Hne). repeat (js_case; cbn); done.
Qed.

End submit.

(** ** The object built from the form data *)

Section to_object.

Implicit Types (entries : list (string * string)) (data : gmap string string).

Lemma assign_lookup key val data k :
  Js.assign key val data !! k =
    if decide (key = k ∧ k ≠ "__proto__") then Some val else data !! k.
Proof.
  unfold Js.assign. destruct (String.eqb_spec key "__proto__") as [->|Hne].
  - case_decide as H; [by destruct H as [<- ?] | done].
  - rewrite lookup_insert. destruct (decide (key = k)) as [->|Hk].
    + destruct (decide (k = "__proto__")); [done|]. by rewrite decide_True.
    + rewrite decide_False; [done|]. by intros [? _].
Qed.

Lemma values_of_cons key k v entries :
  Spec.values_of key ((k, v) :: entries) =
    if decide (k = key) then v :: Spec.values_of key entries
    else Spec.values_of key entries.
Proof. unfold Spec.values_of. rewrite filter_cons. cbn. by case_decide. Qed.

(** Each key ends up with the value of its last entry. *)
Lemma foldl_assign_lookup entries data key :
  foldl (λ data entry, Js.assign entry.1 entry.2 data) data entries !! key =
    if decide (key = "__proto__") then data !! key
    else from_option Some (data !! key) (last (Spec.values_of key entries)).
Proof.
  revert data. induction entries as [|[k v] entries IH]; intros data.
  - cbn. by case_decide.
  - cbn [foldl]. rewrite IH, values_of_cons, assign_lookup. cbn [fst snd].
    destruct (decide (key = "__proto__")) as [->|Hproto].
    + case_decide as H; [by destruct H | done].
    + destruct (decide (k = key)) as [->|Hk].
      * rewrite last_cons. rewrite decide_True by done.
        by destruct (last (Spec.values_of key entries)).
      * rewrite decide_False; [done|]. by intros [? _].
Qed.

Lemma to_object_lookup entries key :
  Survey.to_object entries !! key =
    if decide (key = "__proto__") then None
    else last (Spec.values_of key entries).
Proof.
  unfold Survey.to_object. rewrite foldl_assign_lookup, lookup_empty.
  case_decide; [done|]. by destruct (last _).
Qed.

Lemma values_of_none key entries :
  Forall (λ e, e.1 ≠ key) entries → Spec.values_of key entries = [].
Proof.
  unfold Spec.values_of. induction 1 as [|e entries He _ IH]; [done|].
  rewrite filter_cons. by rewrite decide_False.
Qed.

Lemma values_of_app key entries1 entries2 :
  Spec.values_of key (entries1 ++ entries2) =
    Spec.values_of key entries1 ++ Spec.values_of key entries2.
Proof. unfold Spec.values_of. by rewrite filter_app, fmap_app. Qed.

(** An entry whose name does not come again is the last of its name. *)
Lemma values_of_last entries i key val :
  entries !! i = Some (key, val) →
  (∀ j val', i < j → entries !! j ≠ Some (key, val')) →
  last (Spec.values_of key entries) = Some val.
Proof.
  intros Hi Hlater. rewrite <- (take_drop_middle _ _ _ Hi).
  rewrite values_of_app, values_of_cons, decide_True by done.
  rewrite (values_of_none key (drop (S i) entries)).
  - apply last_snoc.
  - apply Forall_forall. intros [k v] Hin Hk. cbn in Hk. subst k.
    apply list_elem_of_lookup in Hin as [j Hj]. rewrite lookup_drop in Hj.
    apply (Hlater (S i + j) v); [lia | done].
Qed.

End to_object.

(** ** Claims about submission *)

Lemma sample_path : Spec.last_segment "/survey/abc-123" "abc-123".
Proof. by apply last_segment_split. Qed.

Lemma sample_entries :
  Survey.FormData (Survey.surveyForm Sample.survey) =
    [("name", "Asha"); ("colors", "red"); ("colors", "blue")].
Proof. reflexivity. Qed.

(** C10: the survey id is the last ['/']-separated segment of the path of the
    page: what follows its last ['/'], or all of it when it has none, and
    there is exactly one such string. When that segment is empty the script
    alerts and returns, with nothing sent and the page untouched; otherwise
    its one request goes to /submit/ followed by that segment. *)
Theorem survey_id_is_last_path_segment (b : Browser) (p : Survey.Page) :
  let w' := exec Survey.surveyForm_submit (b, p) in
  ∃ seg,
    Spec.last_segment (pathname b) seg ∧
    (∀ seg', Spec.last_segment (pathname b) seg' → seg' = seg) ∧
    (seg = "" →
       alerts w'.1 = alerts b ++ ["Error: Cannot submit form without a survey ID."] ∧
       sent w'.1 = sent b ∧
       w'.2 = p) ∧
    (seg ≠ "" →
       ∃ r, sent w'.1 = sent b ++ [r] ∧
            url r = "/submit/" +:+ seg ∧
            method r = POST).
Proof.
  intros w'. destruct (split_last (pathname b)) as (seg & _ & Hseg).
  exists seg. split_and!; [done | | |].
  - intros seg' Hseg'. by apply (last_segment_unique (pathname b)).
  - intros E. subst w'. unfold exec.
    fold (run Survey.surveyForm_submit (b, p)).
    by rewrite (submit_without_id b p seg Hseg E).
  - intros Hne. eexists. split; [by apply (submit_sends b p seg Hseg)|done].
Qed.

Lemma survey_id_is_last_path_segment_witness :
  (let w' := exec Survey.surveyForm_submit
               (Sample.browser_on "/survey/" NetFail, Sample.survey) in
   alerts w'.1 = ["Error: Cannot submit form without a survey ID."] ∧
   sent w'.1 = []) ∧
  (let w' := exec Survey.surveyForm_submit
               (Sample.browser_on "/survey/abc-123" NetFail, Sample.survey) in
   ∃ r, sent w'.1 = [r] ∧ url r = "/submit/abc-123").
Proof.
  split.
  - destruct (survey_id_is_last_path_segment
                (Sample.browser_on "/survey/" NetFail) Sample.survey)
      as (seg & Hseg & _ & Hempty & _).
    assert (E : seg = "").
    { apply (last_segment_unique "/survey/"); [done | by apply last_segment_split]. }
    destruct (Hempty E) as (Ha & Hs & _). by split.
  - destruct (survey_id_is_last_path_segment
                (Sample.browser_on "/survey/abc-123" NetFail) Sample.survey)
      as (seg & Hseg & _ & _ & Hfull).
    assert (E : seg = "abc-123").
    { by apply (last_segment_unique "/survey/abc-123"), sample_path. }
    subst seg. destruct (Hfull ltac:(done)) as (r & Hs & Hu & _). by exists r.
Defined.

(** C2, as stated, fails on a form with a repeated field name: with the two
    ticked boxes of the question [colors], the form data has the entry
    [colors], [red], and no request the script sends carries it. *)
Lemma submit_drops_repeated_name :
  let w := (Sample.browser_on "/survey/abc-123"
              (Responds {| ok := true; json := Some (Js.VObj ∅) |}), Sample.survey) in
  let w' := exec Survey.surveyForm_submit w in
  ("colors", "red") ∈ Survey.FormData (Survey.surveyForm w.2) ∧
  sent w'.1 ≠ [] ∧
  ∀ r, r ∈ sent w'.1 → ¬ Spec.body_has r "colors" "red".
Proof.
  intros w w'. split; [|split].
  - change (("colors", "red") ∈ Survey.FormData (Survey.surveyForm Sample.survey)).
    rewrite sample_entries. apply list_elem_of_In. cbn. tauto.
  - done.
  - intros r Hr (data & Hbody & Hdata).
    apply list_elem_of_singleton in Hr. subst r. cbn in Hbody.
    injection Hbody as <-. vm_compute in Hdata. discriminate Hdata.
Qed.

(** C2, amended: a submission from a page whose path ends in a survey id
    sends one POST to /submit/<survey_id> whose JSON body maps each field
    name of the form data to the value of the last entry of that name. So
    the body has the pair of every entry whose name does not come again
    later in the form data. (The name [__proto__] is never a key of the
    body.) *)
Theorem submit_posts_last_values (b : Browser) (p : Survey.Page) (sid : string) :
  Spec.last_segment (pathname b) sid →
  sid ≠ "" →
  let w' := exec Survey.surveyForm_submit (b, p) in
  let entries := Survey.FormData (Survey.surveyForm p) in
  ∃ data,
    sent w'.1 =
      sent b ++ [{| url := "/submit/" +:+ sid; method := POST;
                    headers := [("Content-Type", "application/json")];
                    body := JsonBody data |}] ∧
    (∀ key, data !! key =
              if decide (key = "__proto__") then None
              else last (Spec.values_of key entries)) ∧
    (∀ i key val,
       entries !! i = Some (key, val) →
       key ≠ "__proto__" →
       (∀ j val', i < j → entries !! j ≠ Some (key, val')) →
       data !! key = Some val).
Proof.
  intros Hsid Hne w' entries. exists (Survey.to_object entries).
  split_and!.
  - apply (submit_sends b p sid Hsid Hne).
  - apply to_object_lookup.
  - intros i key val Hi Hproto Hlater.
    rewrite to_object_lookup, decide_False by done.
    by apply (values_of_last entries i).
Qed.

Lemma submit_posts_last_values_witness :
  let b := Sample.browser_on "/survey/abc-123"
             (Responds {| ok := true; json := Some (Js.VObj ∅) |}) in
  let w' := exec Survey.surveyForm_submit (b, Sample.survey) in
  ∃ data,
    (body <$> sent w'.1) = [JsonBody data] ∧
    data !! "name" = Some "Asha" ∧
    data !! "colors" = Some "blue".
Proof.
  intros b w'.
  destruct (submit_posts_last_values b Sample.survey "abc-123" sample_path
              ltac:(done)) as (data & Hsent & Hkeys & _).
  exists data. split_and!.
  - subst w'. by rewrite Hsent.
  - by rewrite Hkeys.
  - by rewrite Hkeys.
Defined.

(** C9, as stated, fails on an ok response whose body is not JSON: the
    script reads the body before it looks at [ok], the read throws, and the
    form is left as it was, enabled. *)
Lemma submit_ok_unreadable_leaves_form :
  let r := {| ok := true; json := None |} in
  let w' := exec Survey.surveyForm_submit
              (Sample.browser_on "/survey/abc-123" (Responds r), Sample.survey) in
  ok r = true ∧
  w'.2 = Sample.survey ∧
  ¬ Forall (λ c, Survey.disabled c = true) (Survey.surveyForm w'.2) ∧
  Survey.submittable (Survey.surveyForm w'.2) = true.
Proof.
  intros r w'. split_and!; try done.
  intros H. apply Forall_cons in H as [H _]. discriminate H.
Qed.

(** A form finds its built-ins when no control has their name. *)
Lemma named_nil (key : string) (form : list Survey.Control) :
  Survey.named key form = [] ↔ Spec.unnamed key form.
Proof.
  unfold Survey.named, Spec.unnamed, Survey.is_named.
  induction form as [|c form IH]; [by split; [constructor|]|].
  rewrite Forall_cons, <- IH, filter_cons.
  destruct (String.eqb_spec (Survey.id c) key) as [Hid|Hid];
    destruct (String.eqb_spec (Survey.name c) key) as [Hname|Hname]; cbn;
    (rewrite decide_True by done) || (rewrite decide_False by done);
    split; try done; tauto.
Qed.

Lemma unnamed_reset (key : string) (form : list Survey.Control) :
  Spec.unnamed key form → Spec.unnamed key (Survey.reset_control <$> form).
Proof.
  unfold Spec.unnamed. rewrite Forall_fmap. intros H.
  eapply Forall_impl; [exact H|]. intros c. cbn.
  unfold Survey.reset_control. by destruct (Survey.kind c).
Qed.

Lemma disable_elements_builtin (form : list Survey.Control) :
  Spec.unnamed "elements" form →
  Survey.disable_elements form = Survey.disable <$> form.
Proof.
  intros H%named_nil. unfold Survey.disable_elements. by rewrite H.
Qed.

(** A control called [reset] stands in the way of [form.reset()]: after an
    ok response the success message is shown, the call throws, and the form
    is left as it was, with the alert of the catch block. *)
Lemma submit_reset_shadowed (b : Browser) (p : Survey.Page) (sid : string)
    (r : Response) (result : Js.value) :
  Spec.last_segment (pathname b) sid →
  sid ≠ "" →
  net b (length (sent b)) = Responds r →
  ok r = true →
  json r = Some result →
  ¬ Spec.unnamed "reset" (Survey.surveyForm p) →
  let w' := exec Survey.surveyForm_submit (b, p) in
  Survey.surveyForm w'.2 = Survey.surveyForm p ∧
  alerts w'.1 = alerts b ++ ["An error occurred while submitting the form."].
Proof.
  intros Hsid Hne Hnet Hok Hjson Hreset w'. subst w'. unfold exec.
  fold (run Survey.surveyForm_submit (b, p)).
  rewrite (submit_with_id b p sid Hsid Hne), Hnet, Hjson, Hok.
  rewrite <- named_nil in Hreset.
  by destruct (Survey.named "reset" (Survey.surveyForm p)).
Qed.

(** Controls called [elements] stand in the way of [form.elements]: of the
    controls of the form, only they are touched. One alone is not disabled
    (its options are, if it is a select); several are disabled, and the rest
    of the form stays enabled. *)
Lemma disable_elements_shadowed (form : list Survey.Control) :
  ¬ Spec.unnamed "elements" form →
  Forall2 (λ c c',
             if Survey.is_named "elements" c then
               c' = Survey.disable c ∨ c' = Survey.disable_options c
             else c' = c)
          form (Survey.disable_elements form).
Proof.
  intros H. rewrite <- named_nil in H. unfold Survey.disable_elements.
  destruct (Survey.named "elements" form) as [|c1 [|c2 rest]]; [done| |];
    apply Forall2_fmap_r, Forall_Forall2_diag, Forall_forall; intros c _;
    cbn; destruct (Survey.is_named "elements" c); auto.
Qed.

(** C9, amended: after an ok response to a submission whose body parses as
    JSON, on a form none of whose controls has the id or the name [reset] or
    [elements], the form has been reset and then every element of it
    disabled: each control is disabled, a checkbox is ticked as it was when
    the page was rendered and any other field holds the value it had then;
    no control is left from which the user could start a second submission,
    and the form would contribute no entry. *)
Theorem submit_success_disables_form (b : Browser) (p : Survey.Page)
    (sid : string) (r : Response) (result : Js.value) :
  Spec.last_segment (pathname b) sid →
  sid ≠ "" →
  net b (length (sent b)) = Responds r →
  ok r = true →
  json r = Some result →
  Spec.unnamed "reset" (Survey.surveyForm p) →
  Spec.unnamed "elements" (Survey.surveyForm p) →
  let w' := exec Survey.surveyForm_submit (b, p) in
  Survey.surveyForm w'.2 =
    Survey.disable <$> (Survey.reset_control <$> Survey.surveyForm p) ∧
  Forall2 (λ c c',
             Survey.disabled c' = true ∧
             Survey.id c' = Survey.id c ∧
             Survey.name c' = Survey.name c ∧
             Survey.kind c' = Survey.kind c ∧
             Survey.checked c' =
               (if decide (Survey.kind c = Survey.Checkbox)
                then Survey.defaultChecked c else Survey.checked c) ∧
             Survey.value c' =
               (if decide (Survey.kind c ∈ [Survey.Text; Survey.Date; Survey.Select])
                then Survey.defaultValue c else Survey.value c))
          (Survey.surveyForm p) (Survey.surveyForm w'.2) ∧
  Forall (λ c, Survey.disabled c = true) (Survey.surveyForm w'.2) ∧
  Survey.submittable (Survey.surveyForm w'.2) = false ∧
  Survey.FormData (Survey.surveyForm w'.2) = [] ∧
  ("hidden" ∉ Survey.successModal w'.2) ∧
  alerts w'.1 = alerts b.
Proof.
  intros Hsid Hne Hnet Hok Hjson Hreset Helements w'. subst w'. unfold exec.
  fold (run Survey.surveyForm_submit (b, p)).
  rewrite (submit_with_id b p sid Hsid Hne), Hnet, Hjson, Hok.
  rewrite (proj2 (named_nil _ _) Hreset). cbn.
  rewrite (disable_elements_builtin _ (unnamed_reset _ _ Helements)).
  split; [done|]. split.
  { rewrite <- list_fmap_compose. apply Forall2_fmap_r, Forall_Forall2_diag.
    apply Forall_forall. intros c _. unfold Survey.reset_control. cbn.
    destruct (Survey.kind c) eqn:Hkind; cbn; rewrite ?Hkind;
      split_and!; try done; by case_decide. }
  generalize (Survey.reset_control <$> Survey.surveyForm p). intros form.
  split_and!; try done.
  - by apply Forall_fmap, Forall_true.
  - unfold Survey.submittable. induction form as [|c form IH]; [done|].
    cbn. exact IH.
  - unfold Survey.FormData. induction form as [|c form IH]; [done|].
    cbn [fmap list_fmap]. rewrite filter_cons. cbn.
    rewrite decide_False by done. exact IH.
  - unfold classList_remove. apply not_elem_of_difference. right.
    by apply elem_of_singleton.
Qed.

Lemma submit_success_disables_form_witness :
  let b := Sample.browser_on "/survey/abc-123"
             (Responds {| ok := true; json := Some (Js.VObj ∅) |}) in
  let w' := exec Survey.surveyForm_submit (b, Sample.survey) in
  Forall (λ c, Survey.disabled c = true) (Survey.surveyForm w'.2) ∧
  Survey.submittable (Survey.surveyForm w'.2) = false.
Proof.
  intros b w'.
  assert (Hreset : Spec.unnamed "reset" (Survey.surveyForm Sample.survey))
    by (repeat constructor; done).
  assert (Helements : Spec.unnamed "elements" (Survey.surveyForm Sample.survey))
    by (repeat constructor; done).
  destruct (submit_success_disables_form b Sample.survey "abc-123"
              {| ok := true; json := Some (Js.VObj ∅) |} (Js.VObj ∅)
              sample_path ltac:(done) eq_refl eq_refl eq_refl Hreset Helements)
    as (_ & _ & H1 & H2 & _).
  by split.
Defined.


(** ** Failures *)

Section failures.

Variable b : Browser.

(** *** The network fails *)

Section network.

Hypothesis Hnet : net b (length (sent b)) = NetFail.

Lemma upload_offline (p : Admin.Page) (file : File) (rest : list File) :
  run (Admin.fileInput_change (file :: rest)) (b, p) =
    (Ok tt,
     (log_console "Error uploading file:" (log_sent (Admin.upload_request file) b),
      Admin.shown "Error" "Could not connect to the server." p)).
Proof using Hnet.
  unfold Admin.fileInput_change, Admin.showModal. cbn [lookup list_lookup].
  js_unfold. by rewrite Hnet.
Qed.

Lemma emailButton_offline (p : Admin.Page) :
  ¬ Spec.invalid_email (Admin.shareEmailInput p) →
  run Admin.emailButton_click (b, p) =
    (Ok tt,
     (log_console "Error sending email:"
        (log_sent
           (Admin.share_request (Admin.shareEmailInput p) (Admin.shareLinkInput p)) b),
      Admin.shown "Error" "Could not connect to the server." p)).
Proof using Hnet.
  rewrite <- email_guard, not_true_iff_false. intros Hgood.
  unfold Admin.emailButton_click, Admin.showModal. js_unfold.
  by rewrite Hgood, Hnet.
Qed.

Lemma submit_offline (p : Survey.Page) (sid : string) :
  Spec.last_segment (pathname b) sid →
  sid ≠ "" →
  outcome Survey.surveyForm_submit (b, p) = Ok tt ∧
  alerts (exec Survey.surveyForm_submit (b, p)).1 =
    alerts b ++ ["An error occurred while submitting the form."] ∧
  (exec Survey.surveyForm_submit (b, p)).2 = p.
Proof using Hnet.
  intros Hsid Hne. unfold outcome, exec.
  fold (run Survey.surveyForm_submit (b, p)).
  by rewrite (submit_with_id b p sid Hsid Hne), Hnet.
Qed.

Lemma sendEmail_offline (p : Share.Page) (email link : string) :
  Share.modalEmailInput p = Some email →
  Share.modalLinkInput p = Some link →
  email ≠ "" →
  outcome Share.sendEmail (b, p) = Ok tt ∧
  alerts (exec Share.sendEmail (b, p)).1 =
    alerts b ++ [" Failed to connect to server."].
Proof using Hnet.
  intros He Hl Hne%truthy_string.
  unfold Share.sendEmail, Share.closeShareModal, Share.value_of. js_unfold.
  rewrite He, Hl. cbn [negb]. rewrite Hne. cbn [negb]. by rewrite Hnet.
Qed.

End network.

(** *** The server answers with an error payload *)

Section payload.

Variables (r : Response) (props : gmap string Js.value) (msg : string).
Hypothesis Hnet : net b (length (sent b)) = Responds r.
Hypothesis Hjson : json r = Some (Js.VObj props).
Hypothesis Herror : props !! "error" = Some (Js.VStr msg).
Hypothesis Hmsg : msg ≠ "".

Lemma error_or (fallback : Js.value) :
  Js.or (default Js.VUndefined (props !! "error")) fallback = Js.VStr msg.
Proof using Herror Hmsg.
  rewrite Herror. unfold Js.or. cbn. by destruct (String.eqb_spec msg "").
Qed.

Lemma upload_refused (p : Admin.Page) (file : File) (rest : list File) :
  ok r = false →
  run (Admin.fileInput_change (file :: rest)) (b, p) =
    (Ok tt, (log_sent (Admin.upload_request file) b,
             Admin.shown "Upload Failed" msg p)).
Proof using Hnet Hjson Herror Hmsg.
  intros Hok. unfold Admin.fileInput_change, Admin.showModal.
  cbn [lookup list_lookup]. js_unfold. rewrite Hnet, Hjson, Hok. cbn.
  by rewrite error_or.
Qed.

Lemma emailButton_refused (p : Admin.Page) :
  ok r = false →
  ¬ Spec.invalid_email (Admin.shareEmailInput p) →
  run Admin.emailButton_click (b, p) =
    (Ok tt,
     (log_sent
        (Admin.share_request (Admin.shareEmailInput p) (Admin.shareLinkInput p)) b,
      Admin.shown "Error" msg p)).
Proof using Hnet Hjson Herror Hmsg.
  intros Hok. rewrite <- email_guard, not_true_iff_false. intros Hgood.
  unfold Admin.emailButton_click, Admin.showModal. js_unfold.
  rewrite Hgood, Hnet, Hjson, Hok. cbn. by rewrite error_or.
Qed.

Lemma submit_refused (p : Survey.Page) (sid : string) :
  ok r = false →
  Spec.last_segment (pathname b) sid →
  sid ≠ "" →
  outcome Survey.surveyForm_submit (b, p) = Ok tt ∧
  alerts (exec Survey.surveyForm_submit (b, p)).1 = alerts b ++ ["Error: " +:+ msg] ∧
  (exec Survey.surveyForm_submit (b, p)).2 = p.
Proof using Hnet Hjson Herror Hmsg.
  intros Hok Hsid Hne. unfold outcome, exec.
  fold (run Survey.surveyForm_submit (b, p)).
  rewrite (submit_with_id b p sid Hsid Hne), Hnet, Hjson, Hok. cbn.
  by rewrite error_or.
Qed.

(** [sendEmail] goes by the payload alone, not by [ok]. *)
Lemma sendEmail_refused (p : Share.Page) (email link : string) :
  Share.modalEmailInput p = Some email →
  Share.modalLinkInput p = Some link →
  email ≠ "" →
  outcome Share.sendEmail (b, p) = Ok tt ∧
  alerts (exec Share.sendEmail (b, p)).1 = alerts b ++ [" Error: " +:+ msg].
Proof using Hnet Hjson Herror Hmsg.
  intros He Hl Hne%truthy_string.
  unfold Share.sendEmail, Share.closeShareModal, Share.value_of. js_unfold.
  rewrite He, Hl. cbn [negb]. rewrite Hne. cbn [negb].
  rewrite Hnet, Hjson. cbn. rewrite Herror. cbn.
  by destruct (String.eqb_spec msg "").
Qed.

End payload.

End failures.

(** C5, as stated, fails for the survey form: when the request cannot reach
    the server the script alerts another message, and the message of the
    claim is shown nowhere. *)
Lemma submit_network_failure_message :
  let w' := exec Survey.surveyForm_submit
              (Sample.browser_on "/survey/abc-123" NetFail, Sample.survey) in
  alerts w'.1 = ["An error occurred while submitting the form."] ∧
  ("Could not connect to the server." ∉ alerts w'.1) ∧
  w'.2 = Sample.survey.
Proof.
  intros w'. split_and!; try done.
  intros H. apply list_elem_of_singleton in H. discriminate H.
Qed.

(** C5, amended: when [fetch] fails, every request path catches the
    exception (the handler returns normally) and tells the user, each in its
    own words. The upload and the email button of the admin page show the
    modal [Error], [Could not connect to the server.]; the survey form
    alerts [An error occurred while submitting the form.]; [sendEmail] of
    the share dialog alerts [ Failed to connect to server.]. *)
Theorem network_failure_is_caught (b : Browser) :
  net b (length (sent b)) = NetFail →
  (∀ (p : Admin.Page) (file : File) (rest : list File),
     outcome (Admin.fileInput_change (file :: rest)) (b, p) = Ok tt ∧
     (exec (Admin.fileInput_change (file :: rest)) (b, p)).2 =
       Admin.shown "Error" "Could not connect to the server." p) ∧
  (∀ p : Admin.Page,
     ¬ Spec.invalid_email (Admin.shareEmailInput p) →
     outcome Admin.emailButton_click (b, p) = Ok tt ∧
     (exec Admin.emailButton_click (b, p)).2 =
       Admin.shown "Error" "Could not connect to the server." p) ∧
  (∀ (p : Survey.Page) (sid : string),
     Spec.last_segment (pathname b) sid →
     sid ≠ "" →
     outcome Survey.surveyForm_submit (b, p) = Ok tt ∧
     alerts (exec Survey.surveyForm_submit (b, p)).1 =
       alerts b ++ ["An error occurred while submitting the form."] ∧
     (exec Survey.surveyForm_submit (b, p)).2 = p) ∧
  (∀ (p : Share.Page) (email link : string),
     Share.modalEmailInput p = Some email →
     Share.modalLinkInput p = Some link →
     email ≠ "" →
     outcome Share.sendEmail (b, p) = Ok tt ∧
     alerts (exec Share.sendEmail (b, p)).1 =
       alerts b ++ [" Failed to connect to server."]).
Proof.
  intros Hnet. split_and!.
  - intros p file rest. unfold outcome, exec.
    fold (run (Admin.fileInput_change (file :: rest)) (b, p)).
    by rewrite (upload_offline b Hnet).
  - intros p Hgood. unfold outcome, exec.
    fold (run Admin.emailButton_click (b, p)).
    by rewrite (emailButton_offline b Hnet p Hgood).
  - intros p sid. apply (submit_offline b Hnet).
  - intros p email link. apply (sendEmail_offline b Hnet).
Qed.

Lemma sample_email : ¬ Spec.invalid_email "asha@example.org".
Proof. rewrite <- email_guard. by apply not_true_iff_false. Qed.

Lemma network_failure_is_caught_witness :
  let b := Sample.browser_on "/survey/abc-123" NetFail in
  Admin.modalMessage
    (exec (Admin.fileInput_change [Sample.sheet]) (b, Sample.admin "")).2
    = "Could not connect to the server." ∧
  Admin.modalMessage
    (exec Admin.emailButton_click (b, Sample.admin "asha@example.org")).2
    = "Could not connect to the server." ∧
  alerts (exec Survey.surveyForm_submit (b, Sample.survey)).1
    = ["An error occurred while submitting the form."] ∧
  alerts (exec Share.sendEmail (b, Sample.share "asha@example.org")).1
    = [" Failed to connect to server."].
Proof.
  intros b.
  destruct (network_failure_is_caught b eq_refl) as (Hup & Hmail & Hsub & Hsend).
  split_and!.
  - destruct (Hup (Sample.admin "") Sample.sheet []) as [_ E]. by rewrite E.
  - destruct (Hmail (Sample.admin "asha@example.org") sample_email) as [_ E].
    by rewrite E.
  - by destruct (Hsub Sample.survey "abc-123" sample_path ltac:(done)) as (_ & E & _).
  - by destruct (Hsend (Sample.share "asha@example.org") "asha@example.org"
                   "http://127.0.0.1:5000/survey/abc-123" eq_refl eq_refl ltac:(done))
      as (_ & E).
Defined.

(** C6: when an action fails with a response that carries
    [{error: message}], the message is what the user is shown. On the admin
    page (upload, email button) it is the text of the modal, which is then
    in view, and a click on its close button puts the modal back out of
    view. The survey form and [sendEmail] put it in an [alert], the dialog
    of the browser, which the user closes before the script goes on. *)
Theorem error_payload_is_shown (b : Browser) (r : Response)
    (props : gmap string Js.value) (msg : string) :
  net b (length (sent b)) = Responds r →
  json r = Some (Js.VObj props) →
  props !! "error" = Some (Js.VStr msg) →
  msg ≠ "" →
  (∀ (p : Admin.Page) (file : File) (rest : list File),
     ok r = false →
     let w' := exec (Admin.fileInput_change (file :: rest)) (b, p) in
     Admin.modalMessage w'.2 = msg ∧
     Admin.successModal w'.2 ## Admin.modal_hiding ∧
     Admin.modal_hiding ⊆ Admin.successModal (exec Admin.closeModalButton_click w').2) ∧
  (∀ p : Admin.Page,
     ok r = false →
     ¬ Spec.invalid_email (Admin.shareEmailInput p) →
     let w' := exec Admin.emailButton_click (b, p) in
     Admin.modalMessage w'.2 = msg ∧
     Admin.successModal w'.2 ## Admin.modal_hiding ∧
     Admin.modal_hiding ⊆ Admin.successModal (exec Admin.closeModalButton_click w').2) ∧
  (∀ (p : Survey.Page) (sid : string),
     ok r = false →
     Spec.last_segment (pathname b) sid →
     sid ≠ "" →
     alerts (exec Survey.surveyForm_submit (b, p)).1 = alerts b ++ ["Error: " +:+ msg]) ∧
  (∀ (p : Share.Page) (email link : string),
     Share.modalEmailInput p = Some email →
     Share.modalLinkInput p = Some link →
     email ≠ "" →
     alerts (exec Share.sendEmail (b, p)).1 = alerts b ++ [" Error: " +:+ msg]).
Proof.
  intros Hnet Hjson Herror Hmsg. split_and!.
  - intros p file rest Hok w'. subst w'. unfold exec at 1 2 4.
    fold (run (Admin.fileInput_change (file :: rest)) (b, p)).
    rewrite (upload_refused b r props msg Hnet Hjson Herror Hmsg p file rest Hok).
    split_and!; [done | apply shown_in_view | apply closed_out_of_view].
  - intros p Hok Hgood w'. subst w'. unfold exec at 1 2 4.
    fold (run Admin.emailButton_click (b, p)).
    rewrite (emailButton_refused b r props msg Hnet Hjson Herror Hmsg p Hok Hgood).
    split_and!; [done | apply shown_in_view | apply closed_out_of_view].
  - intros p sid Hok Hsid Hne.
    by destruct (submit_refused b r props msg Hnet Hjson Herror Hmsg p sid Hok Hsid Hne)
      as (_ & E & _).
  - intros p email link He Hl Hne.
    by destruct (sendEmail_refused b r props msg Hnet Hjson Herror Hmsg p email link
                   He Hl Hne) as (_ & E).
Qed.

Lemma error_payload_is_shown_witness :
  let b := Sample.browser_on "/survey/abc-123"
             (Responds (Sample.failure "Not a spreadsheet")) in
  Admin.modalMessage
    (exec (Admin.fileInput_change [Sample.sheet]) (b, Sample.admin "")).2
    = "Not a spreadsheet" ∧
  Admin.modalMessage
    (exec Admin.emailButton_click (b, Sample.admin "asha@example.org")).2
    = "Not a spreadsheet" ∧
  alerts (exec Survey.surveyForm_submit (b, Sample.survey)).1
    = ["Error: Not a spreadsheet"] ∧
  alerts (exec Share.sendEmail (b, Sample.share "asha@example.org")).1
    = [" Error: Not a spreadsheet"].
Proof.
  intros b.
  destruct (error_payload_is_shown b (Sample.failure "Not a spreadsheet")
              {[ "error" := Js.VStr "Not a spreadsheet" ]} "Not a spreadsheet"
              eq_refl eq_refl eq_refl ltac:(done))
    as (Hup & Hmail & Hsub & Hsend).
  split_and!.
  - by destruct (Hup (Sample.admin "") Sample.sheet [] eq_refl) as (E & _).
  - by destruct (Hmail (Sample.admin "asha@example.org") eq_refl sample_email)
      as (E & _).
  - exact (Hsub Sample.survey "abc-123" eq_refl sample_path ltac:(done)).
  - exact (Hsend (Sample.share "asha@example.org") "asha@example.org"
             "http://127.0.0.1:5000/survey/abc-123" eq_refl eq_refl ltac:(done)).
Defined.


(** * Further properties *)

(** ** Answers that lack what the script reads *)

(** X1: when a response that is not ok has a body without a usable [error]
    (the property is missing, or empty, null, zero or false), each handler
    shows a message of its own: the upload [An unknown error occurred.]
    under the title [Upload Failed], the email button [Failed to send
    email.] under [Error], and the survey form alerts [Error: Could not
    submit survey.]. *)
Theorem missing_error_falls_back (b : Browser) (r : Response)
  (result error : Js.value) :
  net b (length (sent b)) = Responds r →
  ok r = false →
  json r = Some result →
  Js.get result "error" = inr error →
  Js.truthy error = false →
  (∀ (p : Admin.Page) (file : File) (rest : list File),
     (exec (Admin.fileInput_change (file :: rest)) (b, p)).2 =
       Admin.shown "Upload Failed" "An unknown error occurred." p) ∧
  (∀ p : Admin.Page,
     ¬ Spec.invalid_email (Admin.shareEmailInput p) →
     (exec Admin.emailButton_click (b, p)).2 =
       Admin.shown "Error" "Failed to send email." p) ∧
  (∀ (p : Survey.Page) (sid : string),
     Spec.last_segment (pathname b) sid →
     sid ≠ "" →
     alerts (exec Survey.surveyForm_submit (b, p)).1 =
       alerts b ++ ["Error: Could not submit survey."] ∧
     (exec Survey.surveyForm_submit (b, p)).2 = p).
Proof.
  intros Hnet Hok Hjson Herror Hfalsy. split_and!.
  - intros p file rest. unfold Admin.fileInput_change, Admin.showModal.
    cbn [lookup list_lookup]. js_unfold. rewrite Hnet, Hjson, Hok. cbn.
    rewrite Herror. cbn. unfold Js.or. by rewrite Hfalsy.
  - intros p. rewrite <- email_guard, not_true_iff_false. intros Hgood.
    unfold Admin.emailButton_click, Admin.showModal. js_unfold.
    rewrite Hgood, Hnet, Hjson, Hok. cbn. rewrite Herror. cbn.
    unfold Js.or. by rewrite Hfalsy.
  - intros p sid Hsid Hne. unfold exec.
    fold (run Survey.surveyForm_submit (b, p)).
    rewrite (submit_with_id b p sid Hsid Hne), Hnet, Hjson, Hok, Herror.
    unfold Js.or. by rewrite Hfalsy.
Qed.

Lemma missing_error_falls_back_witness :
  let b := Sample.browser_on "/survey/abc-123"
             (Responds {| ok := false; json := Some (Js.VObj ∅) |}) in
  Admin.modalMessage
    (exec (Admin.fileInput_change [Sample.sheet]) (b, Sample.admin "")).2
    = "An unknown error occurred." ∧
  Admin.modalMessage
    (exec Admin.emailButton_click (b, Sample.admin "asha@example.org")).2
    = "Failed to send email." ∧
  alerts (exec Survey.surveyForm_submit (b, Sample.survey)).1
    = ["Error: Could not submit survey."].
Proof.
  intros b.
  destruct (missing_error_falls_back b {| ok := false; json := Some (Js.VObj ∅) |}
              (Js.VObj ∅) Js.VUndefined eq_refl eq_refl eq_refl eq_refl eq_refl)
    as (Hup & Hmail & Hsub).
  split_and!.
  - by rewrite (Hup (Sample.admin "") Sample.sheet []).
  - by rewrite (Hmail (Sample.admin "asha@example.org") sample_email).
  - by destruct (Hsub Sample.survey "abc-123" sample_path ltac:(done)) as [E _].
Defined.



(** ** What holds along any sequence of actions on the admin page *)

(** A property that every handler keeps holds after any sequence of them. *)
Lemma dispatch_invariant {P} (I : Browser * P → Prop)
  (actions : list (JS P unit)) (w : Browser * P) :
  I w →
  (∀ h w, h ∈ actions → I w → I (exec h w)) →
  I (exec (dispatch actions) w).
Proof.
  revert w. induction actions as [|h actions IH]; intros w Hw Hstep; [done|].
  rewrite exec_dispatch_cons. apply IH.
  - apply Hstep; [by left | done].
  - intros h' w' Hin. apply Hstep. by right.
Qed.

(** No handler of the admin page changes what the network will answer. *)
Lemma admin_handler_net (a : Admin.Action) (w : Browser * Admin.Page) :
  net (exec (Admin.handler a) w).1 = net w.1.
Proof.
  destruct w as [b p]. destruct a as [[|file rest]| | | |]; cbn [Admin.handler];
    try done.
  - unfold Admin.fileInput_change, Admin.showModal. cbn [lookup list_lookup].
    js_run.
  - unfold Admin.emailButton_click, Admin.showModal. js_run.
  - unfold Admin.downloadButton_click, Admin.showModal. js_run.
Qed.

Lemma admin_step_unpublished (a : Admin.Action) (b : Browser) (p : Admin.Page) :
  (∀ r, net b (length (sent b)) = Responds r → ok r = false) →
  let w' := exec (Admin.handler a) (b, p) in
  published_part w'.2 = published_part p ∧
  (Js.truthy (Admin.currentSurveyId p) = false →
   navigations w'.1 = navigations b).
Proof.
  intros Hnet. destruct a as [[|file rest]| | | |]; cbn [Admin.handler];
    try done.
  - destruct (upload_sends b p file rest) as (_ & _ & Hnav).
    split; [|done].
    unfold Admin.fileInput_change, Admin.showModal. cbn [lookup list_lookup].
    js_unfold.
    destruct (net b (length (sent b))) as [|r] eqn:Hr; [done|].
    specialize (Hnet r eq_refl). destruct r as [o body]. cbn in Hnet. subst o.
    cbn. repeat (js_case; cbn); done.
  - unfold Admin.emailButton_click, Admin.showModal. js_run.
  - unfold Admin.downloadButton_click, Admin.showModal. js_unfold.
    destruct (Js.truthy (Admin.currentSurveyId p)) eqn:Hid; cbn;
      [|done]. split; [|done]. by destruct (Js.ToString _).
Qed.

(** X3: as long as the server never answers ok, nothing is published,
    whatever the user does on the admin page and in whatever order: the
    current survey id, the share link and the two screens stay as they
    were, and a page that had no survey id never navigates to a
    download. *)
Theorem nothing_published_without_ok (b : Browser) (p : Admin.Page)
  (actions : list Admin.Action) :
  (∀ n r, net b n = Responds r → ok r = false) →
  let w' := exec (dispatch (Admin.handler <$> actions)) (b, p) in
  Admin.currentSurveyId w'.2 = Admin.currentSurveyId p ∧
  Admin.shareLinkInput w'.2 = Admin.shareLinkInput p ∧
  Admin.uploadScreen w'.2 = Admin.uploadScreen p ∧
  Admin.publishedScreen w'.2 = Admin.publishedScreen p ∧
  (Js.truthy (Admin.currentSurveyId p) = false →
   navigations w'.1 = navigations b).
Proof.
  intros Hnet w'.
  assert (H : net w'.1 = net b ∧ published_part w'.2 = published_part p ∧
              (Js.truthy (Admin.currentSurveyId p) = false →
               navigations w'.1 = navigations b)).
  { subst w'. apply (dispatch_invariant (λ w,
      net w.1 = net b ∧ published_part w.2 = published_part p ∧
      (Js.truthy (Admin.currentSurveyId p) = false →
       navigations w.1 = navigations b))); [done|].
    intros h [b1 p1] Hin (Hb1 & Hp1 & Hn1).
    apply list_elem_of_fmap in Hin as (a & -> & _).
    split; [by rewrite admin_handler_net|].
    destruct (admin_step_unpublished a b1 p1) as [Hpub Hnav].
    { intros r Hr. apply (Hnet (length (sent b1))). cbn in Hb1. by rewrite <- Hb1. }
    split; [by rewrite Hpub|].
    intros Hid. cbn in Hn1. rewrite <- (Hn1 Hid). apply Hnav.
    injection Hp1 as -> _ _ _. exact Hid. }
  destruct H as (_ & Hpub & Hnav). injection Hpub as -> -> -> ->. done.
Qed.

Lemma nothing_published_without_ok_witness :
  let b := Sample.browser_on "/" (Responds (Sample.failure "Not a spreadsheet")) in
  let w' := exec (dispatch (Admin.handler <$>
                    [Admin.ChooseFiles [Sample.sheet]; Admin.ClickDownload;
                     Admin.TypeEmail "asha@example.org"; Admin.ClickEmail]))
                 (b, Sample.admin "") in
  Admin.currentSurveyId w'.2 = Js.VNull ∧
  Admin.publishedScreen w'.2 = {[ "hidden" ]} ∧
  navigations w'.1 = [].
Proof.
  intros b w'.
  destruct (nothing_published_without_ok b (Sample.admin "")
              [Admin.ChooseFiles [Sample.sheet]; Admin.ClickDownload;
               Admin.TypeEmail "asha@example.org"; Admin.ClickEmail])
    as (H1 & _ & _ & H4 & H5).
  { intros n r [= <-]. done. }
  split_and!; [exact H1 | exact H4 | exact (H5 eq_refl)].
Defined.

Lemma admin_step_frame (a : Admin.Action) (b : Browser) (p : Admin.Page) :
  let w' := exec (Admin.handler a) (b, p) in
  (∀ c, c ∉ Admin.modal_hiding →
     c ∈ Admin.successModal w'.2 ↔ c ∈ Admin.successModal p) ∧
  Admin.shareEmailInput w'.2 =
    match a with
    | Admin.TypeEmail email => email
    | _ => Admin.shareEmailInput p
    end.
Proof.
  assert (Hshow : ∀ title message c, c ∉ Admin.modal_hiding →
    c ∈ Admin.successModal (Admin.shown title message p)
      ↔ c ∈ Admin.successModal p).
  { intros title message c Hc. cbn. unfold classList_remove.
    rewrite elem_of_difference. tauto. }
  destruct a as [[|file rest]| | | |]; cbn [Admin.handler]; try done.
  - unfold Admin.fileInput_change, Admin.showModal. cbn [lookup list_lookup].
    js_unfold. cbn. repeat (js_case; cbn); (split; [|done]);
      try done; intros c Hc; unfold classList_remove;
      rewrite elem_of_difference; tauto.
  - unfold Admin.emailButton_click, Admin.showModal. js_unfold. cbn.
    repeat (js_case; cbn); (split; [|done]);
      try done; intros c Hc; unfold classList_remove;
      rewrite elem_of_difference; tauto.
  - unfold Admin.downloadButton_click, Admin.showModal. js_unfold. cbn.
    repeat (js_case; cbn); (split; [|done]);
      try done; intros c Hc; unfold classList_remove;
      rewrite elem_of_difference; tauto.
  - split; [|done]. intros c Hc. cbn. unfold classList_add.
    rewrite elem_of_union. tauto.
Qed.

(** X4: along any sequence of actions on the admin page, the handlers touch
    the modal only through its two hiding classes, every other class of it
    is kept, and the email input holds what the user typed last: no handler
    clears or rewrites the address, not even after it has been sent. *)
Theorem admin_handlers_keep_modal_and_address (b : Browser) (p : Admin.Page)
  (actions : list Admin.Action) :
  let w' := exec (dispatch (Admin.handler <$> actions)) (b, p) in
  (∀ c, c ∉ Admin.modal_hiding →
     c ∈ Admin.successModal w'.2 ↔ c ∈ Admin.successModal p) ∧
  Admin.shareEmailInput w'.2 =
    default (Admin.shareEmailInput p) (last (typed actions)).
Proof.
  revert b p. induction actions as [|a actions IH]; intros b p w'; [done|].
  subst w'. cbn [fmap list_fmap]. rewrite exec_dispatch_cons.
  destruct (admin_step_frame a b p) as [Hc He].
  destruct (exec (Admin.handler a) (b, p)) as [b1 p1].
  destruct (IH b1 p1) as [IHc IHe]. cbn in Hc, He. split.
  - intros c Hnot. by rewrite (IHc c Hnot), (Hc c Hnot).
  - rewrite IHe, He. unfold typed. cbn [omap list_omap].
    destruct a; cbn; try done.
    rewrite last_cons. fold (typed actions). by destruct (last (typed actions)).
Qed.

Lemma admin_handlers_keep_modal_and_address_witness :
  let b := Sample.browser_on "/"
             (Responds {| ok := true; json := Some (Js.VObj Sample.published) |}) in
  let w' := exec (dispatch (Admin.handler <$>
                    [Admin.TypeEmail "asha@example.org"; Admin.ClickEmail;
                     Admin.ClickCloseModal]))
                 (b, Sample.admin "") in
  Admin.shareEmailInput w'.2 = "asha@example.org" ∧
  ("fixed" ∉ Admin.successModal w'.2).
Proof.
  intros b w'.
  destruct (admin_handlers_keep_modal_and_address b (Sample.admin "")
              [Admin.TypeEmail "asha@example.org"; Admin.ClickEmail;
               Admin.ClickCloseModal]) as [Hc He].
  split; [exact He|]. intros Hin.
  apply (Hc "fixed") in Hin; [|by vm_compute]. by vm_compute in Hin.
Defined.

(** X5: the link that the email button sends is the one the upload has put
    into the share-link input. After an upload answered with ok and a
    [survey_url], typing a valid address and clicking the email button
    posts exactly that address and, as the link, what the input kept of the
    URL: the URL without its line breaks, which is the URL itself when it
    is of one line. It is the second request of the page. *)
Theorem upload_then_share_posts_survey_url (b : Browser) (p : Admin.Page)
  (file : File) (rest : list File) (props : gmap string Js.value)
  (survey_url email : string) :
  net b (length (sent b))
    = Responds {| ok := true; json := Some (Js.VObj props) |} →
  props !! "survey_url" = Some (Js.VStr survey_url) →
  ¬ Spec.invalid_email email →
  ∃ link,
    Spec.without_line_breaks survey_url link ∧
    (Spec.single_line survey_url → link = survey_url) ∧
    sent (exec (dispatch (Admin.handler <$>
                  [Admin.ChooseFiles (file :: rest); Admin.TypeEmail email;
                   Admin.ClickEmail])) (b, p)).1 =
      sent b ++ [Admin.upload_request file; Admin.share_request email link].
Proof.
  intros Hnet Hurl Hemail. exists (Js.strip_newlines survey_url).
  split; [apply strip_newlines_spec|].
  split; [apply strip_newlines_single_line|].
  cbn [fmap list_fmap Admin.handler].
  rewrite !exec_dispatch_cons, exec_dispatch_nil.
  destruct (upload_sends b p file rest) as (Hsent & _ & _).
  pose proof (upload_ok b p file rest props (Js.strip_newlines survey_url) Hnet)
    as Hpage.
  rewrite Hurl in Hpage. specialize (Hpage eq_refl).
  destruct (exec (Admin.fileInput_change (file :: rest)) (b, p)) as [b1 p1].
  cbn in Hsent, Hpage. subst p1.
  change (exec (update (Admin.set_shareEmailInput email)) (b1, ?q))
    with (b1, Admin.set_shareEmailInput email q).
  rewrite emailButton_sends by done. cbn. rewrite Hsent.
  by rewrite <- (assoc_L (++)).
Qed.

Lemma upload_then_share_posts_survey_url_witness :
  let b := Sample.browser_on "/"
             (Responds {| ok := true; json := Some (Js.VObj Sample.published) |}) in
  sent (exec (dispatch (Admin.handler <$>
                [Admin.ChooseFiles [Sample.sheet];
                 Admin.TypeEmail "asha@example.org";
                 Admin.ClickEmail])) (b, Sample.admin "")).1 =
    [Admin.upload_request Sample.sheet;
     Admin.share_request "asha@example.org"
       "http://127.0.0.1:5000/survey/abc-123"].
Proof.
  intros b.
  destruct (upload_then_share_posts_survey_url b (Sample.admin "") Sample.sheet []
              Sample.published "http://127.0.0.1:5000/survey/abc-123"
              "asha@example.org" eq_refl eq_refl sample_email)
    as (link & _ & Hlink & Hsent).
  rewrite Hsent, Hlink; [done|].
  split; vm_compute; intros H'; decompose [or] H'; done.
Defined.

(** ** The share dialog *)

Section sendEmail.

Variables (b : Browser) (p : Share.Page) (email link : string).
Hypothesis Hemail : Share.modalEmailInput p = Some email.
Hypothesis Hlink : Share.modalLinkInput p = Some link.
Hypothesis Hne : email ≠ "".

Let posted : Browser := log_sent (Share.share_request email link) b.
Let restored (q : Share.Page) : Share.Page :=
  Share.set_btn {| Share.innerHTML := from_option Share.innerHTML "Send Now" (Share.btn p);
                   Share.disabled := false |}
    (Share.set_btn {| Share.innerHTML := Share.spinner; Share.disabled := true |} q).
Let failed : res unit * (Browser * Share.Page) :=
  (Ok tt, (log_alert " Failed to connect to server." (log_console "err" posted),
           restored p)).

(** What [sendEmail] does with each answer, once it has an address. *)
Lemma sendEmail_run :
  run Share.sendEmail (b, p) =
    match net b (length (sent b)) with
    | NetFail => failed
    | Responds r =>
        match json r with
        | None => failed
        | Some data =>
            match Js.get data "error" with
            | inl _ => failed
            | inr error =>
                if Js.truthy error then
                  match Js.ToString error with
                  | inl _ => failed
                  | inr text =>
                      (Ok tt, (log_alert (" Error: " +:+ text) posted, restored p))
                  end
                else
                  match Js.get data "message" with
                  | inl _ => failed
                  | inr message =>
                      match
                        Js.ToString
                          (Js.or message (Js.VStr "Email sent successfully!"))
                      with
                      | inl _ => failed
                      | inr text =>
                          (Ok tt,
                           (log_alert (" " +:+ text) posted,
                            restored
                              (Share.set_shareModal (classList_add {[ "hidden" ]}) p)))
                      end
                  end
            end
        end
    end.
Proof using Hemail Hlink Hne.
  apply truthy_string in Hne.
  unfold Share.sendEmail, Share.closeShareModal, Share.value_of. js_unfold.
  rewrite Hemail, Hlink. cbn [negb]. rewrite Hne. cbn.
  repeat (js_case; cbn); done.
Qed.

End sendEmail.

(** X6: [sendEmail] never looks at the status of the answer. Two answers
    with the same body, one ok and one not, leave the same dialogs, the same
    requests and the same page: an answer that is not ok and has no [error]
    is reported as a success. *)
Theorem sendEmail_ignores_status (b1 b2 : Browser) (p : Share.Page)
  (r1 r2 : Response) :
  sent b1 = sent b2 →
  alerts b1 = alerts b2 →
  net b1 (length (sent b1)) = Responds r1 →
  net b2 (length (sent b2)) = Responds r2 →
  json r1 = json r2 →
  let w1 := exec Share.sendEmail (b1, p) in
  let w2 := exec Share.sendEmail (b2, p) in
  outcome Share.sendEmail (b1, p) = outcome Share.sendEmail (b2, p) ∧
  w1.2 = w2.2 ∧
  alerts w1.1 = alerts w2.1 ∧
  sent w1.1 = sent w2.1.
Proof.
  intros Hsent Halerts Hnet1 Hnet2 Hjson w1 w2. subst w1 w2.
  destruct (Share.modalEmailInput p) as [email|] eqn:Hemail;
    [|by unfold outcome, exec, Share.sendEmail, Share.value_of; js_unfold;
         rewrite Hemail].
  destruct (Share.modalLinkInput p) as [link|] eqn:Hlink;
    [|by unfold outcome, exec, Share.sendEmail, Share.value_of; js_unfold;
         rewrite Hemail, Hlink].
  destruct (decide (email = "")) as [->|Hne].
  - unfold outcome, exec. fold (run Share.sendEmail (b1, p)).
    fold (run Share.sendEmail (b2, p)).
    rewrite !(sendEmail_rejects_empty _ p link Hemail Hlink). cbn.
    by rewrite Halerts.
  - unfold outcome, exec. fold (run Share.sendEmail (b1, p)).
    fold (run Share.sendEmail (b2, p)).
    rewrite (sendEmail_run b1 p email link Hemail Hlink Hne).
    rewrite (sendEmail_run b2 p email link Hemail Hlink Hne).
    rewrite Hnet1, Hnet2, Hjson.
    repeat (js_case; cbn); by rewrite ?Halerts, ?Hsent.
Qed.

Lemma sendEmail_ignores_status_witness :
  let body := Some (Js.VObj {[ "message" := Js.VStr "queued" ]}) in
  let p := Sample.share "asha@example.org" in
  alerts (exec Share.sendEmail
            (Sample.browser_on "/" (Responds {| ok := false; json := body |}), p)).1
    = [" queued"] ∧
  alerts (exec Share.sendEmail
            (Sample.browser_on "/" (Responds {| ok := true; json := body |}), p)).1
    = [" queued"].
Proof.
  intros body p.
  destruct (sendEmail_ignores_status
              (Sample.browser_on "/" (Responds {| ok := false; json := body |}))
              (Sample.browser_on "/" (Responds {| ok := true; json := body |}))
              p {| ok := false; json := body |} {| ok := true; json := body |}
              eq_refl eq_refl eq_refl eq_refl eq_refl) as (_ & _ & H & _).
  split; [by rewrite H | done].
Defined.

(** X7: [sendEmail] never leaves its button in the loading state and never
    ends in an exception once both inputs are there. Whatever the server
    does, the button has afterwards the markup it had before and is
    enabled; when the address is empty the button is not touched at all. *)
Theorem sendEmail_restores_button (b : Browser) (p : Share.Page)
  (email link : string) :
  Share.modalEmailInput p = Some email →
  Share.modalLinkInput p = Some link →
  let w' := exec Share.sendEmail (b, p) in
  outcome Share.sendEmail (b, p) = Ok tt ∧
  Share.btn w'.2 =
    if decide (email = "") then Share.btn p
    else (λ button, {| Share.innerHTML := Share.innerHTML button;
                       Share.disabled := false |}) <$> Share.btn p.
Proof.
  intros Hemail Hlink w'. subst w'. unfold outcome, exec.
  fold (run Share.sendEmail (b, p)).
  destruct (decide (email = "")) as [->|Hne].
  - by rewrite (sendEmail_rejects_empty b p link Hemail Hlink).
  - rewrite (sendEmail_run b p email link Hemail Hlink Hne).
    repeat (js_case; cbn); by destruct (Share.btn p).
Qed.

Lemma sendEmail_restores_button_witness :
  Share.btn (exec Share.sendEmail
               (Sample.browser_on "/" NetFail, Sample.share "asha@example.org")).2
  = Some {| Share.innerHTML := "Send Now"; Share.disabled := false |}.
Proof.
  by destruct (sendEmail_restores_button (Sample.browser_on "/" NetFail)
                 (Sample.share "asha@example.org") "asha@example.org"
                 "http://127.0.0.1:5000/survey/abc-123" eq_refl eq_refl)
    as [_ ->].
Defined.



(** ** The survey form *)

(** X9: the survey form is changed only by a successful submission. If the
    page is not as it was after the submit handler, the path had a survey
    id and the server answered ok with a readable body; in every other
    case (no id, no network, an error, an unreadable body) the answers
    typed by the user are all still in the form, which is still enabled
    as it was. *)
Theorem submit_failure_keeps_form (b : Browser) (p : Survey.Page) :
  (exec Survey.surveyForm_submit (b, p)).2 ≠ p →
  ∃ sid r result,
    Spec.last_segment (pathname b) sid ∧
    sid ≠ "" ∧
    net b (length (sent b)) = Responds r ∧
    ok r = true ∧
    json r = Some result.
Proof.
  destruct (split_last (pathname b)) as (sid & _ & Hsid).
  unfold exec. fold (run Survey.surveyForm_submit (b, p)).
  destruct (decide (sid = "")) as [Hempty|Hne].
  - by rewrite (submit_without_id b p sid Hsid Hempty).
  - rewrite (submit_with_id b p sid Hsid Hne).
    destruct (net b (length (sent b))) as [|r] eqn:Hnet; [done|].
    destruct (json r) as [result|] eqn:Hjson; [|done].
    destruct (ok r) eqn:Hok.
    + intros _. by exists sid, r, result.
    + repeat (js_case; cbn); done.
Qed.

Lemma submit_failure_keeps_form_witness :
  ∃ sid r result,
    Spec.last_segment "/survey/abc-123" sid ∧
    sid ≠ "" ∧
    Responds {| ok := true; json := Some (Js.VObj ∅) |} = Responds r ∧
    ok r = true ∧
    json r = Some result.
Proof.
  apply (submit_failure_keeps_form
           (Sample.browser_on "/survey/abc-123"
              (Responds {| ok := true; json := Some (Js.VObj ∅) |}))
           Sample.survey).
  intros H. apply (f_equal Survey.surveyForm) in H.
  apply (f_equal (fmap Survey.disabled)) in H. discriminate H.
Defined.

Section to_object_keys.

Implicit Types (entries : list (string * string)).

Lemma to_object_dom entries :
  dom (Survey.to_object entries) =
    list_to_set (entries.*1) ∖ {[ "__proto__" ]}.
Proof.
  apply set_eq. intros key.
  rewrite elem_of_dom, to_object_lookup, elem_of_difference,
    elem_of_list_to_set, elem_of_singleton.
  destruct (decide (key = "__proto__")) as [->|Hproto].
  - split; [by intros [? ?] | by intros [_ []]].
  - rewrite last_is_Some. unfold Spec.values_of. split.
    + intros Hnil. split; [|done].
      destruct (filter _ entries) as [|[k v] l] eqn:Hf; [done|].
      assert (Hin : (k, v) ∈ filter (λ e : string * string, e.1 = key) entries)
        by (rewrite Hf; left).
      apply list_elem_of_filter in Hin as [Hk Hin]. cbn in Hk. subst k.
      apply list_elem_of_fmap. by exists (key, v).
    + intros [Hin _] Hnil. apply list_elem_of_fmap in Hin as ([k v] & -> & Hin).
      apply fmap_nil_inv in Hnil.
      assert (Hf : (k, v) ∈ filter (λ e : string * string, e.1 = (k, v).1) entries)
        by by apply list_elem_of_filter.
      rewrite Hnil in Hf. by apply elem_of_nil in Hf.
Qed.

Lemma to_object_distinct entries :
  NoDup (entries.*1) →
  "__proto__" ∉ entries.*1 →
  Survey.to_object entries = list_to_map entries.
Proof.
  intros Hnodup Hproto. apply map_eq. intros key.
  rewrite to_object_lookup.
  destruct (decide (key = "__proto__")) as [->|Hkey].
  - symmetry. by apply not_elem_of_list_to_map_1.
  - clear Hproto. induction entries as [|[k v] entries IH]; [done|].
    cbn in Hnodup. apply NoDup_cons in Hnodup as [Hk Hnodup].
    rewrite values_of_cons. cbn [list_to_map foldr].
    destruct (decide (k = key)) as [->|Hne].
    + rewrite lookup_insert_eq, values_of_none; [done|].
      apply Forall_forall. intros [k' v'] Hin Heq. cbn in Heq. subst k'.
      apply Hk, list_elem_of_fmap. by exists (key, v').
    + rewrite lookup_insert_ne by done. by apply IH.
Qed.

End to_object_keys.

(** X10: the object sent by the survey form has exactly the field names of
    the form data as its keys ([__proto__] apart), and when no field name
    is repeated it holds every entry: it is the form data as a map, with as
    many pairs as there are entries, and every pair of it is an entry. *)
Theorem body_is_form_data_when_names_differ (entries : list (string * string)) :
  dom (Survey.to_object entries) =
    list_to_set (entries.*1) ∖ {[ "__proto__" ]} ∧
  (NoDup (entries.*1) →
   "__proto__" ∉ entries.*1 →
   (∀ key val, Survey.to_object entries !! key = Some val ↔ (key, val) ∈ entries) ∧
   size (Survey.to_object entries) = length entries).
Proof.
  split; [apply to_object_dom|]. intros Hnodup Hproto.
  rewrite (to_object_distinct entries Hnodup Hproto). split.
  - intros key val. symmetry. by apply elem_of_list_to_map.
  - rewrite <- (length_fmap fst entries). rewrite <- (size_dom (D:=gset string)).
    rewrite dom_list_to_map_L. by apply size_list_to_set.
Qed.

Lemma body_is_form_data_when_names_differ_witness :
  let entries := [("name", "Asha"); ("born", "2001-05-17")] in
  Survey.to_object entries !! "born" = Some "2001-05-17" ∧
  size (Survey.to_object entries) = 2.
Proof.
  intros entries.
  destruct (body_is_form_data_when_names_differ entries) as [_ H].
  destruct H as [Hpairs Hsize].
  - by apply (bool_decide_unpack _); vm_compute.
  - by apply (bool_decide_unpack _); vm_compute.
  - split; [|exact Hsize]. apply Hpairs. right. left.
Defined.

(** ** The demo sheet *)

Lemma hidden_not_layout : "hidden" ∉ Demo.layout.
Proof. by apply (bool_decide_unpack _); vm_compute. Qed.

Lemma togglePage_hidden (p : Demo.Page) :
  "hidden" ∈ Demo.ExcelPage (Demo.togglePage p) ↔ "hidden" ∉ Demo.ExcelPage p.
Proof.
  pose proof hidden_not_layout as Hnl. unfold Demo.togglePage.
  destruct (decide ("hidden" ∈ Demo.ExcelPage p)) as [Hin|Hout]; cbn;
    unfold classList_add, classList_remove.
  - rewrite elem_of_union, elem_of_difference, elem_of_singleton. tauto.
  - rewrite elem_of_difference, elem_of_union, elem_of_singleton. tauto.
Qed.

Lemma togglePage_coherent (p : Demo.Page) : sheet_coherent (Demo.togglePage p).
Proof.
  pose proof hidden_not_layout as Hnl. unfold Demo.togglePage, sheet_coherent.
  destruct (decide ("hidden" ∈ Demo.ExcelPage p)) as [Hin|Hout]; cbn;
    unfold classList_add, classList_remove.
  - right. split_and!; [|apply union_subseteq_r|done].
    rewrite elem_of_union, elem_of_difference, elem_of_singleton. tauto.
  - left. split_and!; [| |done].
    + rewrite elem_of_difference, elem_of_union, elem_of_singleton. tauto.
    + symmetry. by apply disjoint_difference_l1.
Qed.

Lemma togglePage_twice (p : Demo.Page) :
  sheet_coherent p → Demo.togglePage (Demo.togglePage p) = p.
Proof.
  pose proof hidden_not_layout as Hnl.
  pose proof (togglePage_hidden p) as Hflip.
  intros Hp. unfold Demo.togglePage at 1.
  destruct p as [classes label lavender]. unfold sheet_coherent in Hp.
  cbn in Hp, Hflip. destruct Hp as [(Hin & Hdis & ->)|(Hout & Hsub & ->)].
  - rewrite decide_False by (rewrite Hflip; tauto).
    unfold Demo.togglePage. rewrite decide_True by done. cbn. f_equal.
    unfold classList_add, classList_remove. apply set_eq. intros c.
    rewrite elem_of_difference, !elem_of_union, elem_of_difference,
      elem_of_singleton.
    specialize (Hdis c). destruct (decide (c = "hidden")) as [->|]; tauto.
  - rewrite decide_True by (by rewrite Hflip).
    unfold Demo.togglePage. rewrite decide_False by done. cbn. f_equal.
    unfold classList_add, classList_remove. apply set_eq. intros c.
    rewrite elem_of_union, !elem_of_difference, elem_of_union,
      elem_of_singleton.
    specialize (Hsub c). destruct (decide (c ∈ Demo.layout));
      destruct (decide (c = "hidden")) as [->|]; tauto.
Qed.

(** X11: [togglePage] flips the demo sheet: it is hidden afterwards exactly
    when it was shown before. Afterwards the sheet is in one of its two
    proper states, whatever it was: hidden, with none of the four layout
    classes and the button reading [Show Demo Excelsheet], or shown, with
    all four and the button reading [Hide Demo Excelsheet]. No other class
    of the sheet is touched. *)
Theorem togglePage_flips (p : Demo.Page) :
  let p' := Demo.togglePage p in
  ("hidden" ∈ Demo.ExcelPage p' ↔ "hidden" ∉ Demo.ExcelPage p) ∧
  sheet_coherent p' ∧
  (∀ c, c ≠ "hidden" → c ∉ Demo.layout →
     c ∈ Demo.ExcelPage p' ↔ c ∈ Demo.ExcelPage p) ∧
  Demo.lavenderPage p' = Demo.lavenderPage p.
Proof.
  intros p'. subst p'.
  split_and!; [apply togglePage_hidden | apply togglePage_coherent | |].
  - intros c Hc Hl. unfold Demo.togglePage.
    destruct (decide ("hidden" ∈ Demo.ExcelPage p)); cbn;
      unfold classList_add, classList_remove.
    + rewrite elem_of_union, elem_of_difference, elem_of_singleton. tauto.
    + rewrite elem_of_difference, elem_of_union, elem_of_singleton. tauto.
  - unfold Demo.togglePage. by destruct (decide _).
Qed.

Lemma togglePage_flips_witness :
  let p := {| Demo.ExcelPage := {[ "hidden"; "fixed" ]};
              Demo.toggleButton := "Show Demo Excelsheet";
              Demo.lavenderPage := None |} in
  ("fixed" ∈ Demo.ExcelPage (Demo.togglePage p)) ∧
  ("hidden" ∉ Demo.ExcelPage (Demo.togglePage p)).
Proof.
  intros p. destruct (togglePage_flips p) as (Hflip & _ & Hother & _). split.
  - apply Hother; [done | by apply (bool_decide_unpack _); vm_compute |].
    by apply (bool_decide_unpack _); vm_compute.
  - intros Hin. apply Hflip in Hin. apply Hin.
    by apply (bool_decide_unpack _); vm_compute.
Defined.

(** X12: two clicks on the toggle button bring the demo sheet back. From a
    proper state (hidden without the layout classes, or shown with them,
    and the button reading accordingly) toggling twice gives back the very
    same page; from any state at all, the second and third toggle undo each
    other. *)
Theorem togglePage_twice_is_identity (p : Demo.Page) :
  (sheet_coherent p → Demo.togglePage (Demo.togglePage p) = p) ∧
  Demo.togglePage (Demo.togglePage (Demo.togglePage p)) = Demo.togglePage p.
Proof.
  split; [apply togglePage_twice|]. apply togglePage_twice, togglePage_coherent.
Qed.

Lemma togglePage_twice_is_identity_witness :
  let p := {| Demo.ExcelPage := {[ "hidden"; "fixed" ]};
              Demo.toggleButton := "Show Demo Excelsheet";
              Demo.lavenderPage := None |} in
  Demo.togglePage (Demo.togglePage p) = p.
Proof.
  intros p. apply (proj1 (togglePage_twice_is_identity p)). left.
  split_and!; [| |done].
  - by apply (bool_decide_unpack _); vm_compute.
  - by apply (bool_decide_unpack _); vm_compute.
Defined.

(** X13: the Escape key closes the demo sheet only on a page that has an
    element [lavenderPage]. Any other key does nothing. On Escape the
    handler reads the classes of [lavenderPage], not of the sheet: without
    such an element it ends in a ReferenceError and the sheet stays as it
    is, shown or hidden; with one, it toggles the sheet exactly when that
    element is not hidden, so it can also open a hidden sheet. *)
Theorem escape_reads_lavenderPage (p : Demo.Page) :
  (∀ key, key ≠ "Escape" → Demo.keydown key p = Demo.Returns p) ∧
  (Demo.lavenderPage p = None →
   Demo.keydown "Escape" p = Demo.ReferenceError) ∧
  (∀ classes, Demo.lavenderPage p = Some classes →
     Demo.keydown "Escape" p =
       Demo.Returns (if decide ("hidden" ∈ classes) then p else Demo.togglePage p)) ∧
  (∀ key p', Demo.keydown key p = Demo.Returns p' →
     ("hidden" ∈ Demo.ExcelPage p' ↔ "hidden" ∈ Demo.ExcelPage p) ∨
     (key = "Escape" ∧ ∃ classes,
        Demo.lavenderPage p = Some classes ∧ "hidden" ∉ classes)).
Proof.
  split_and!.
  - intros key Hkey. unfold Demo.keydown.
    by destruct (String.eqb_spec key "Escape").
  - intros Hnone. unfold Demo.keydown. cbn. by rewrite Hnone.
  - intros classes Hsome. unfold Demo.keydown. cbn. rewrite Hsome.
    by destruct (decide ("hidden" ∈ classes));
      [rewrite bool_decide_eq_true_2 | rewrite bool_decide_eq_false_2].
  - intros key p'. unfold Demo.keydown.
    destruct (String.eqb_spec key "Escape") as [->|Hkey];
      [|intros [= <-]; by left].
    destruct (Demo.lavenderPage p) as [classes|]; [|done].
    destruct (decide ("hidden" ∈ classes)) as [Hin|Hout].
    + rewrite bool_decide_eq_true_2 by done. intros [= <-]. by left.
    + intros _. right. split; [done|]. by exists classes.
Qed.

Lemma escape_reads_lavenderPage_witness :
  Demo.keydown "Escape"
    {| Demo.ExcelPage := {[ "flex" ]}; Demo.toggleButton := "Hide Demo Excelsheet";
       Demo.lavenderPage := None |} = Demo.ReferenceError.
Proof.
  by apply (proj1 (proj2 (escape_reads_lavenderPage _))).
Defined.

(** ** The copy button of the admin page *)

Ltac js_unfold_all :=
  cbv [exec outcome run zoom mbind mret JS_bind JS_ret bind ret throw try_catch
       finally page browser update update_browser lift fetch response_json
       alert console_error console_log set_location_href fst snd
       Copy.on_admin Dialog.on_share Dialog.prompt].

(** X14: the copy button reports a copy whether or not one was made. It
    selects the share link and runs the copy command without looking at
    what the command returns: when the browser refuses the command the
    clipboard keeps what it had and the modal still says [Link Copied]. Only
    when the command copies does the clipboard hold the link, and only when
    it throws is no modal shown. The button never makes a request. *)
Theorem copyButton_reports_copy (b : Browser) (p : Copy.Page) :
  let w' := exec Copy.copyButton_click (b, p) in
  let link := Admin.shareLinkInput (Copy.admin p) in
  let copied :=
    Admin.shown "Link Copied" "The survey link is now in your clipboard."
      (Copy.admin p) in
  sent w'.1 = sent b ∧
  selection (Copy.board w'.2) = link ∧
  (execCommand_copy (Copy.board p) = Copies →
   clipboard (Copy.board w'.2) = link ∧ Copy.admin w'.2 = copied) ∧
  (execCommand_copy (Copy.board p) = Refuses →
   clipboard (Copy.board w'.2) = clipboard (Copy.board p) ∧
   Copy.admin w'.2 = copied) ∧
  (∀ e, execCommand_copy (Copy.board p) = Fails e →
     outcome Copy.copyButton_click (b, p) = Throw e ∧
     clipboard (Copy.board w'.2) = clipboard (Copy.board p) ∧
     Copy.admin w'.2 = Copy.admin p).
Proof.
  intros w' link copied. subst w' link copied.
  unfold Copy.copyButton_click, Admin.showModal, execCommand. js_unfold_all.
  cbn. destruct (execCommand_copy (Copy.board p)) as [| |e]; cbn;
    split_and!; try done.
  by intros e' [= <-].
Qed.

Lemma copyButton_reports_copy_witness :
  let p := {| Copy.admin := Admin.set_shareLinkInput "http://127.0.0.1:5000/survey/abc-123"
                              (Sample.admin "");
              Copy.board := {| clipboard := "before"; selection := "";
                               execCommand_copy := Refuses |} |} in
  let w' := exec Copy.copyButton_click (Sample.browser_on "/" NetFail, p) in
  clipboard (Copy.board w'.2) = "before" ∧
  Admin.modalTitle (Copy.admin w'.2) = "Link Copied".
Proof.
  intros p w'.
  destruct (copyButton_reports_copy (Sample.browser_on "/" NetFail) p)
    as (_ & _ & _ & H & _).
  destruct (H eq_refl) as [Hc Ha]. split; [exact Hc|]. subst w'. by rewrite Ha.
Defined.

(** X15: what the copy button puts on the clipboard is the link of the
    survey just published: after an upload answered with ok and a
    [survey_url], a click on the copy button, in a browser that allows the
    copy command, leaves on the clipboard what the share-link input kept of
    that URL: the URL without its line breaks, which is the URL itself when
    it is of one line. *)
Theorem upload_then_copy_gives_survey_url (b : Browser) (p : Copy.Page)
  (file : File) (rest : list File) (props : gmap string Js.value)
  (survey_url : string) :
  net b (length (sent b))
    = Responds {| ok := true; json := Some (Js.VObj props) |} →
  props !! "survey_url" = Some (Js.VStr survey_url) →
  execCommand_copy (Copy.board p) = Copies →
  let copied :=
    clipboard
      (Copy.board
         (exec (dispatch [Copy.on_admin (Admin.fileInput_change (file :: rest));
                          Copy.copyButton_click]) (b, p)).2) in
  Spec.without_line_breaks survey_url copied ∧
  (Spec.single_line survey_url → copied = survey_url).
Proof.
  intros Hnet Hurl Hcopies copied.
  assert (E : copied = Js.strip_newlines survey_url).
  { subst copied. rewrite !exec_dispatch_cons, exec_dispatch_nil.
    pose proof (upload_ok b (Copy.admin p) file rest props
                  (Js.strip_newlines survey_url) Hnet) as Hpage.
    rewrite Hurl in Hpage. specialize (Hpage eq_refl).
    unfold exec at 2. unfold Copy.on_admin, zoom. cbn [fst snd].
    unfold exec in Hpage.
    destruct (Admin.fileInput_change (file :: rest) (b, Copy.admin p))
      as [r [b1 a1]]. cbn in Hpage. subst a1. cbn [snd].
    unfold Copy.copyButton_click, Admin.showModal, execCommand. js_unfold_all.
    cbn. by rewrite Hcopies. }
  rewrite E. split; [apply strip_newlines_spec|apply strip_newlines_single_line].
Qed.

Lemma upload_then_copy_gives_survey_url_witness :
  let b := Sample.browser_on "/"
             (Responds {| ok := true; json := Some (Js.VObj Sample.published) |}) in
  let p := {| Copy.admin := Sample.admin "";
              Copy.board := {| clipboard := ""; selection := "";
                               execCommand_copy := Copies |} |} in
  clipboard
    (Copy.board
       (exec (dispatch [Copy.on_admin (Admin.fileInput_change [Sample.sheet]);
                        Copy.copyButton_click]) (b, p)).2)
  = "http://127.0.0.1:5000/survey/abc-123".
Proof.
  intros b p.
  apply (upload_then_copy_gives_survey_url b p Sample.sheet [] Sample.published
           "http://127.0.0.1:5000/survey/abc-123" eq_refl eq_refl eq_refl).
  split; vm_compute; intros H'; decompose [or] H'; done.
Defined.

(** ** Percent-encoding *)

Section uri.

Lemma hex_code (n : N) :
  (n < 16)%N →
  Ascii.N_of_ascii (Uri.hex n) = (if (n <? 10)%N then 48 + n else 55 + n)%N.
Proof.
  intros Hn. unfold Uri.hex. apply Ascii.N_ascii_embedding.
  destruct (N.ltb_spec n 10); lia.
Qed.

Lemma hex_inj (n m : N) :
  (n < 16)%N → (m < 16)%N → Uri.hex n = Uri.hex m → n = m.
Proof.
  intros Hn Hm Heq. apply (f_equal Ascii.N_of_ascii) in Heq.
  rewrite !hex_code in Heq by done.
  destruct (N.ltb_spec n 10), (N.ltb_spec m 10); lia.
Qed.

Lemma hex_unreserved (n : N) : (n < 16)%N → Uri.unreserved (Uri.hex n) = true.
Proof.
  intros Hn. unfold Uri.unreserved. rewrite hex_code by done.
  apply orb_true_intro. left.
  destruct (N.ltb_spec n 10).
  - apply orb_true_intro. left. apply orb_true_intro. left.
    apply andb_true_intro. split; apply N.leb_le; lia.
  - apply orb_true_intro. left. apply orb_true_intro. right.
    apply andb_true_intro. split; apply N.leb_le; lia.
Qed.

Lemma percent_reserved : Uri.unreserved Uri.percent = false.
Proof. reflexivity. Qed.

Lemma code_digits (c : Ascii.ascii) :
  let n := Ascii.N_of_ascii c in (n / 16 < 16)%N ∧ (n mod 16 < 16)%N.
Proof.
  intros n. pose proof (Ascii.N_ascii_bounded c) as Hc. fold n in Hc. split.
  - apply N.Div0.div_lt_upper_bound. lia.
  - apply N.mod_lt. lia.
Qed.

Lemma encode_app (s t : string) :
  Uri.encodeURIComponent (s +:+ t) =
    Uri.encodeURIComponent s +:+ Uri.encodeURIComponent t.
Proof.
  induction s as [|c s IH]; [done|].
  change (String c s +:+ t) with (String c (s +:+ t)).
  cbn [Uri.encodeURIComponent]. rewrite IH. by destruct (Uri.unreserved c).
Qed.

Lemma encode_inj (s t : string) :
  Uri.encodeURIComponent s = Uri.encodeURIComponent t → s = t.
Proof.
  revert t. induction s as [|c s IH]; intros [|d t]; cbn [Uri.encodeURIComponent].
  - done.
  - by destruct (Uri.unreserved d).
  - by destruct (Uri.unreserved c).
  - destruct (code_digits c) as [Hc1 Hc2], (code_digits d) as [Hd1 Hd2].
    destruct (Uri.unreserved c) eqn:Hc, (Uri.unreserved d) eqn:Hd.
    + intros [= -> Heq]. f_equal. by apply IH.
    + intros [= -> _]. by rewrite percent_reserved in Hc.
    + intros [= <- _]. by rewrite percent_reserved in Hd.
    + intros [= Hhi Hlo Heq].
      apply hex_inj in Hhi; [|done..]. apply hex_inj in Hlo; [|done..].
      f_equal; [|by apply IH].
      rewrite <- (Ascii.ascii_N_embedding c), <- (Ascii.ascii_N_embedding d).
      f_equal.
      rewrite (N.div_mod (Ascii.N_of_ascii c) 16),
        (N.div_mod (Ascii.N_of_ascii d) 16) by done.
      by rewrite Hhi, Hlo.
Qed.

Lemma encode_safe (s : string) :
  Forall (λ c, url_safe c = true)
    (String.list_ascii_of_string (Uri.encodeURIComponent s)).
Proof.
  induction s as [|c s IH]; [by constructor|]. cbn [Uri.encodeURIComponent].
  destruct (code_digits c) as [Hhi Hlo].
  destruct (Uri.unreserved c) eqn:Hc; cbn [String.list_ascii_of_string].
  - constructor; [|done]. unfold url_safe. by rewrite Hc.
  - apply Forall_cons. split; [done|].
    apply Forall_cons. split; [by unfold url_safe; rewrite hex_unreserved|].
    apply Forall_cons. split; [by unfold url_safe; rewrite hex_unreserved|].
    done.
Qed.

End uri.

(** X16: the text that goes into a WhatsApp link cannot leave its query
    parameter and loses nothing. [encodeURIComponent] yields only letters,
    digits, [- _ . ! ~ * ' ( )] and ['%']: no ['&'], ['#'], ['='], ['+'] or
    space of the survey link survives unescaped. The WhatsApp link is always
    [https://wa.me/?text=Please%20fill%20out%20this%20survey%3A%20]
    followed by the escaped survey link, and two different survey links
    never give the same WhatsApp link. *)
Theorem whatsapp_href_is_safe_and_faithful (link : string) :
  Dialog.whatsapp_href link =
    "https://wa.me/?text=Please%20fill%20out%20this%20survey%3A%20" +:+
    Uri.encodeURIComponent link ∧
  Forall (λ c, url_safe c = true)
    (String.list_ascii_of_string (Uri.encodeURIComponent link)) ∧
  (∀ c, c ∈ String.list_ascii_of_string "&#=+ ?/" → url_safe c = false) ∧
  (∀ other, Dialog.whatsapp_href other = Dialog.whatsapp_href link → other = link).
Proof.
  assert (Hshape : ∀ l, Dialog.whatsapp_href l =
    "https://wa.me/?text=Please%20fill%20out%20this%20survey%3A%20" +:+
    Uri.encodeURIComponent l).
  { intros l. unfold Dialog.whatsapp_href. by rewrite encode_app. }
  split_and!.
  - apply Hshape.
  - apply encode_safe.
  - intros c Hc. apply list_elem_of_In in Hc. cbn in Hc.
    by repeat destruct Hc as [<-|Hc].
  - intros other. rewrite !Hshape. intros Heq.
    apply encode_inj. by simplify_eq.
Qed.

Lemma whatsapp_href_is_safe_and_faithful_witness :
  Dialog.whatsapp_href "http://127.0.0.1:5000/survey/abc-123?a=1&b=2" =
    "https://wa.me/?text=Please%20fill%20out%20this%20survey%3A%20" +:+
    "http%3A%2F%2F127.0.0.1%3A5000%2Fsurvey%2Fabc-123%3Fa%3D1%26b%3D2" ∧
  url_safe Spec.at_sign = false.
Proof.
  destruct (whatsapp_href_is_safe_and_faithful
              "http://127.0.0.1:5000/survey/abc-123?a=1&b=2") as (H & _ & _ & _).
  split; [exact H | done].
Defined.

(** ** The dashboard *)

Section dashboard.

Variables (b : Browser) (p : Dialog.Page).

(** [openShareModal] does nothing without the dialog or its link input. *)
Lemma openShareModal_missing (link : string) :
  Share.shareModal (Dialog.share p) = None ∨
  Share.modalLinkInput (Dialog.share p) = None →
  run (Dialog.openShareModal link) (b, p) = (Ok tt, (b, p)).
Proof.
  unfold Dialog.openShareModal. js_unfold_all.
  destruct (Share.shareModal (Dialog.share p)),
    (Share.modalLinkInput (Dialog.share p)); by intros [|].
Qed.

(** With both, it fills the dialog in and shows it. *)
Lemma openShareModal_opens (link old : string) (classes : gset string) :
  Share.shareModal (Dialog.share p) = Some classes →
  Share.modalLinkInput (Dialog.share p) = Some old →
  run (Dialog.openShareModal link) (b, p) =
    (Ok tt,
     (b,
      Dialog.set_share
        {| Share.shareModal := Some (classes ∖ {[ "hidden" ]});
           Share.modalLinkInput := Some (Js.strip_newlines link);
           Share.modalEmailInput :=
             (λ _, "") <$> Share.modalEmailInput (Dialog.share p);
           Share.btn := Share.btn (Dialog.share p) |}
        (Dialog.set_whatsappBtn (Dialog.whatsapp_href link) p))).
Proof.
  intros Hmodal Hinput. unfold Dialog.openShareModal. js_unfold_all.
  rewrite Hmodal, Hinput. cbn.
  unfold Dialog.set_share, Dialog.set_whatsappBtn, Share.set_shareModal,
    Dialog.set_modalEmailInput, Dialog.set_modalLinkInput, classList_remove.
  cbn. by rewrite Hmodal, Hinput.
Qed.

End dashboard.

(** X17: [openShareModal] needs the dialog and its link input. If either
    element is missing from the page the call changes nothing at all.
    Otherwise it puts the link into the input, which keeps it without its
    line breaks (as it is, when it is of one line), empties the email input
    and points the WhatsApp button at the link as it was given, each only
    if that element is there, and takes [hidden] off the dialog; the Send
    button is not touched, and nothing is sent. *)
Theorem openShareModal_needs_dialog_and_input (b : Browser) (p : Dialog.Page)
  (link : string) :
  let w' := exec (Dialog.openShareModal link) (b, p) in
  w'.1 = b ∧
  (Share.shareModal (Dialog.share p) = None ∨
   Share.modalLinkInput (Dialog.share p) = None →
   w'.2 = p) ∧
  (is_Some (Share.shareModal (Dialog.share p)) →
   is_Some (Share.modalLinkInput (Dialog.share p)) →
   (∃ kept,
      Share.modalLinkInput (Dialog.share w'.2) = Some kept ∧
      Spec.without_line_breaks link kept ∧
      (Spec.single_line link → kept = link)) ∧
   Share.modalEmailInput (Dialog.share w'.2) =
     (λ _, "") <$> Share.modalEmailInput (Dialog.share p) ∧
   Dialog.whatsappBtn w'.2 =
     (λ _, Dialog.whatsapp_href link) <$> Dialog.whatsappBtn p ∧
   Share.shareModal (Dialog.share w'.2) =
     classList_remove {[ "hidden" ]} <$> Share.shareModal (Dialog.share p) ∧
   Share.btn (Dialog.share w'.2) = Share.btn (Dialog.share p) ∧
   Dialog.templatePreview w'.2 = Dialog.templatePreview p ∧
   Dialog.board w'.2 = Dialog.board p).
Proof.
  intros w'. subst w'. unfold exec.
  fold (run (Dialog.openShareModal link) (b, p)).
  destruct (Share.shareModal (Dialog.share p)) as [classes|] eqn:Hmodal;
    [destruct (Share.modalLinkInput (Dialog.share p)) as [old|] eqn:Hinput|].
  - rewrite (openShareModal_opens b p link old classes Hmodal Hinput). cbn.
    split_and!; try done; [intros [H|H]; discriminate H|].
    intros _ _. split_and!; try done. exists (Js.strip_newlines link).
    split_and!; [done|apply strip_newlines_spec|apply strip_newlines_single_line].
  - rewrite openShareModal_missing by by right.
    split_and!; try done; by intros _ [? ?].
  - rewrite openShareModal_missing by by left.
    split_and!; try done; by intros [? ?].
Qed.

Lemma openShareModal_needs_dialog_and_input_witness :
  let p := {| Dialog.share :=
                {| Share.shareModal := None; Share.modalLinkInput := Some "";
                   Share.modalEmailInput := Some "asha@example.org";
                   Share.btn := None |};
              Dialog.templatePreview := None; Dialog.whatsappBtn := Some "#";
              Dialog.board := {| clipboard := ""; selection := "";
                                 execCommand_copy := Copies |};
              Dialog.navigator_clipboard := false;
              Dialog.isSecureContext := false; Dialog.writeText := None;
              Dialog.body_textareas := []; Dialog.prompts := [] |} in
  let q := Dialog.set_share (Sample.share "old@example.org") p in
  (exec (Dialog.openShareModal "http://127.0.0.1:5000/survey/abc-123")
     (Sample.browser_on "/" NetFail, p)).2 = p ∧
  Share.modalLinkInput
    (Dialog.share
       (exec (Dialog.openShareModal "http://127.0.0.1:5000/survey/xyz-9")
          (Sample.browser_on "/" NetFail, q)).2)
  = Some "http://127.0.0.1:5000/survey/xyz-9".
Proof.
  intros p q. split.
  - destruct (openShareModal_needs_dialog_and_input
                (Sample.browser_on "/" NetFail) p
                "http://127.0.0.1:5000/survey/abc-123") as (_ & H & _).
    apply H. by left.
  - destruct (openShareModal_needs_dialog_and_input
                (Sample.browser_on "/" NetFail) q
                "http://127.0.0.1:5000/survey/xyz-9") as (_ & _ & H).
    destruct (H ltac:(by eexists) ltac:(by eexists))
      as ((kept & Hkept & _ & Hsame) & _).
    rewrite Hkept, Hsame; [done|].
    split; vm_compute; intros H'; decompose [or] H'; done.
Defined.

Lemma exec_zoom {P Q A} (get : P → Q) (set : Q → P → P) (m : JS Q A)
  (b : Browser) (p : P) :
  exec (zoom get set m) (b, p) =
    ((exec m (b, get p)).1, set (exec m (b, get p)).2 p).
Proof. unfold exec, zoom. cbn. by destruct (m (b, get p)) as [r [b' q]]. Qed.

(** X18: the share dialog sends the link it was opened for, and nothing
    before an address is typed. On a page that has the dialog and its two
    inputs, opening the dialog for a link and clicking Send at once is
    refused with [Please enter an email address] and no request, whatever
    address the input held from an earlier use; typing an address and
    clicking Send posts that address with the link the dialog was opened
    for, as the input kept it (without its line breaks, so as it is when it
    is of one line), whatever link the input held before. *)
Theorem dialog_sends_the_link_it_was_opened_for (b : Browser) (p : Dialog.Page)
  (link email : string) :
  is_Some (Share.shareModal (Dialog.share p)) →
  is_Some (Share.modalLinkInput (Dialog.share p)) →
  is_Some (Share.modalEmailInput (Dialog.share p)) →
  (let w' := exec (dispatch (Dialog.handler <$>
                     [Dialog.OpenShare link; Dialog.ClickSend])) (b, p) in
   sent w'.1 = sent b ∧
   alerts w'.1 = alerts b ++ ["Please enter an email address"]) ∧
  (email ≠ "" →
   ∃ kept,
     Spec.without_line_breaks link kept ∧
     (Spec.single_line link → kept = link) ∧
     sent (exec (dispatch (Dialog.handler <$>
                   [Dialog.OpenShare link; Dialog.TypeEmail email;
                    Dialog.ClickSend])) (b, p)).1 =
       sent b ++ [Share.share_request email kept]).
Proof.
  intros [classes Hmodal] [old Hinput] [before Hemail].
  cbn [fmap list_fmap Dialog.handler].
  rewrite !exec_dispatch_cons, !exec_dispatch_nil.
  assert (Hopen : exec (Dialog.openShareModal link) (b, p) =
    (run (Dialog.openShareModal link) (b, p)).2) by done.
  rewrite (openShareModal_opens b p link old classes Hmodal Hinput) in Hopen.
  rewrite Hopen. cbn [snd]. rewrite Hemail. cbn [fmap option_fmap option_map].
  unfold Dialog.sendEmail, Dialog.on_share. split.
  - rewrite exec_zoom. cbn [fst snd Dialog.share Dialog.set_share].
    unfold exec. match goal with |- context [Share.sendEmail ?w] =>
      fold (run Share.sendEmail w) end.
    by rewrite (sendEmail_rejects_empty _ _ (Js.strip_newlines link)).
  - intros Hne. exists (Js.strip_newlines link).
    split; [apply strip_newlines_spec|].
    split; [apply strip_newlines_single_line|]. rewrite !exec_zoom.
    cbn [fst snd Dialog.share Dialog.set_share exec update].
    by rewrite (sendEmail_sends _ _ email (Js.strip_newlines link)).
Qed.

Lemma dialog_sends_the_link_it_was_opened_for_witness :
  let p := {| Dialog.share := Sample.share "old@example.org";
              Dialog.templatePreview := None; Dialog.whatsappBtn := None;
              Dialog.board := {| clipboard := ""; selection := "";
                                 execCommand_copy := Copies |};
              Dialog.navigator_clipboard := false;
              Dialog.isSecureContext := false; Dialog.writeText := None;
              Dialog.body_textareas := []; Dialog.prompts := [] |} in
  alerts (exec (dispatch (Dialog.handler <$>
                  [Dialog.OpenShare "http://127.0.0.1:5000/survey/xyz-9";
                   Dialog.ClickSend])) (Sample.browser_on "/" NetFail, p)).1
  = ["Please enter an email address"] ∧
  sent (exec (dispatch (Dialog.handler <$>
                [Dialog.OpenShare "http://127.0.0.1:5000/survey/xyz-9";
                 Dialog.TypeEmail "asha@example.org";
                 Dialog.ClickSend])) (Sample.browser_on "/" NetFail, p)).1
  = [Share.share_request "asha@example.org"
       "http://127.0.0.1:5000/survey/xyz-9"].
Proof.
  intros p.
  destruct (dialog_sends_the_link_it_was_opened_for (Sample.browser_on "/" NetFail) p
              "http://127.0.0.1:5000/survey/xyz-9" "asha@example.org"
              ltac:(by eexists) ltac:(by eexists) ltac:(by eexists))
    as [[_ H] Hsend].
  split; [exact H|].
  destruct (Hsend ltac:(done)) as (kept & _ & Hsame & Hsent).
  rewrite Hsent, Hsame; [done|].
  split; vm_compute; intros H'; decompose [or] H'; done.
Defined.

Lemma classList_toggle_twice (token : string) (classes : gset string) :
  Dialog.classList_toggle token (Dialog.classList_toggle token classes) = classes.
Proof.
  unfold Dialog.classList_toggle at 2.
  destruct (decide (token ∈ classes)) as [Hin|Hout];
    unfold Dialog.classList_toggle.
  - rewrite decide_False
      by (rewrite elem_of_difference, elem_of_singleton; tauto).
    apply set_eq. intros c.
    rewrite elem_of_union, elem_of_difference, elem_of_singleton.
    destruct (decide (c = token)) as [->|]; tauto.
  - rewrite decide_True
      by (rewrite elem_of_union, elem_of_singleton; tauto).
    apply set_eq. intros c.
    rewrite elem_of_difference, elem_of_union, elem_of_singleton.
    destruct (decide (c = token)) as [->|]; tauto.
Qed.

(** X19: the template preview is shown and hidden by the same call, and a
    second call undoes the first: after [toggleTemplate] the preview has
    the class [hidden] exactly when it did not have it before, two calls
    leave the whole page as it was, and on a page without the preview the
    call does nothing. *)
Theorem toggleTemplate_twice_is_identity (w : Browser * Dialog.Page) :
  exec Dialog.toggleTemplate (exec Dialog.toggleTemplate w) = w ∧
  (Dialog.templatePreview w.2 = None → exec Dialog.toggleTemplate w = w) ∧
  (∀ classes, Dialog.templatePreview w.2 = Some classes →
     ∃ classes',
       Dialog.templatePreview (exec Dialog.toggleTemplate w).2 = Some classes' ∧
       ("hidden" ∈ classes' ↔ "hidden" ∉ classes) ∧
       (∀ c, c ≠ "hidden" → c ∈ classes' ↔ c ∈ classes)).
Proof.
  destruct w as [b [share preview whatsapp board api secure write body prompts]].
  split_and!.
  - unfold Dialog.toggleTemplate, exec, update, Dialog.set_templatePreview. cbn.
    do 2 f_equal. destruct preview as [classes|]; [|done]. cbn.
    by rewrite classList_toggle_twice.
  - cbn. by intros ->.
  - cbn. intros classes ->. eexists. split; [done|].
    unfold Dialog.classList_toggle.
    destruct (decide ("hidden" ∈ classes)) as [Hin|Hout]; split.
    + rewrite elem_of_difference, elem_of_singleton. tauto.
    + intros c Hc. rewrite elem_of_difference, elem_of_singleton. tauto.
    + rewrite elem_of_union, elem_of_singleton. tauto.
    + intros c Hc. rewrite elem_of_union, elem_of_singleton. tauto.
Qed.

Lemma toggleTemplate_twice_is_identity_witness :
  let p := {| Dialog.share := Sample.share "";
              Dialog.templatePreview := None; Dialog.whatsappBtn := None;
              Dialog.board := {| clipboard := ""; selection := "";
                                 execCommand_copy := Copies |};
              Dialog.navigator_clipboard := false;
              Dialog.isSecureContext := false; Dialog.writeText := None;
              Dialog.body_textareas := []; Dialog.prompts := [] |} in
  let w := (Sample.browser_on "/" NetFail, p) in
  exec Dialog.toggleTemplate w = w.
Proof.
  intros p w.
  exact (proj1 (proj2 (toggleTemplate_twice_is_identity w)) eq_refl).
Defined.

(** ** Copying the link from the dashboard *)

(** X20: [robustCopy] tells the user exactly once and cleans up after
    itself. In every browser, with or without the clipboard API, secure
    context or not, and whatever the copy command does, the call returns
    normally having opened exactly one dialog (an alert or the prompt),
    the text area it may have appended to the body is gone again, and
    nothing was sent or changed in the share dialog. *)
Theorem robustCopy_tells_once (b : Browser) (p : Dialog.Page) (text : string) :
  let w' := exec (Dialog.robustCopy text) (b, p) in
  outcome (Dialog.robustCopy text) (b, p) = Ok tt ∧
  length (alerts w'.1) + length (Dialog.prompts w'.2) =
    S (length (alerts b) + length (Dialog.prompts p)) ∧
  Dialog.body_textareas w'.2 = Dialog.body_textareas p ∧
  sent w'.1 = sent b ∧
  navigations w'.1 = navigations b ∧
  Dialog.share w'.2 = Dialog.share p.
Proof.
  intros w'. subst w'.
  unfold Dialog.robustCopy, Dialog.fallbackCopy, execCommand. js_unfold_all.
  cbn.
  destruct (Dialog.navigator_clipboard p), (Dialog.isSecureContext p),
    (Dialog.writeText p); cbn;
    destruct (execCommand_copy (Dialog.board p)); cbn;
    rewrite ?removelast_last, ?length_app; cbn; split_and!; (done || lia).
Qed.

(** X21: what [robustCopy] tells the user, case by case. With the clipboard
    API, in a secure context and a write that goes through, the clipboard
    holds the text and the user reads [ Link copied to clipboard!]. In
    every other case the copy command decides: if it copies, the clipboard
    holds what the text area gave back of the text (the text with its line
    breaks normalised, so the text itself when it has no carriage return)
    and the user reads [ Link copied!]; if the browser refuses it, the
    user reads [ Link copied!] all the same although the clipboard is as it
    was; if it throws, the user gets the text in a prompt to copy by
    hand. *)
Theorem robustCopy_outcomes (b : Browser) (p : Dialog.Page) (text : string) :
  let w' := exec (Dialog.robustCopy text) (b, p) in
  let modern :=
    Dialog.navigator_clipboard p && Dialog.isSecureContext p &&
    bool_decide (Dialog.writeText p = None) in
  (modern = true →
   clipboard (Dialog.board w'.2) = text ∧
   alerts w'.1 = alerts b ++ [" Link copied to clipboard!"] ∧
   Dialog.prompts w'.2 = Dialog.prompts p) ∧
  (modern = false →
   match execCommand_copy (Dialog.board p) with
   | Copies =>
       clipboard (Dialog.board w'.2) = Js.normalize_newlines text ∧
       (¬ Spec.occurs Js.CR text → clipboard (Dialog.board w'.2) = text) ∧
       ¬ Spec.occurs Js.CR (clipboard (Dialog.board w'.2)) ∧
       alerts w'.1 = alerts b ++ [" Link copied!"] ∧
       Dialog.prompts w'.2 = Dialog.prompts p
   | Refuses =>
       clipboard (Dialog.board w'.2) = clipboard (Dialog.board p) ∧
       alerts w'.1 = alerts b ++ [" Link copied!"] ∧
       Dialog.prompts w'.2 = Dialog.prompts p
   | Fails _ =>
       clipboard (Dialog.board w'.2) = clipboard (Dialog.board p) ∧
       alerts w'.1 = alerts b ∧
       Dialog.prompts w'.2 = Dialog.prompts p ++ [("Copy link manually:", text)]
   end).
Proof.
  intros w' modern. subst w' modern.
  unfold Dialog.robustCopy, Dialog.fallbackCopy, execCommand. js_unfold_all.
  cbn.
  destruct (Dialog.navigator_clipboard p), (Dialog.isSecureContext p),
    (Dialog.writeText p); cbn;
    destruct (execCommand_copy (Dialog.board p)); cbn;
    split; intros Hmodern; try discriminate Hmodern; try done;
    (split_and!; [done| |apply normalize_newlines_no_CR|done..]);
    intros Hcr; by rewrite normalize_newlines_without_CR.
Qed.

Lemma robustCopy_outcomes_witness :
  let p := {| Dialog.share := Sample.share "";
              Dialog.templatePreview := None; Dialog.whatsappBtn := None;
              Dialog.board := {| clipboard := "before"; selection := "";
                                 execCommand_copy := Refuses |};
              Dialog.navigator_clipboard := true;
              Dialog.isSecureContext := false; Dialog.writeText := None;
              Dialog.body_textareas := []; Dialog.prompts := [] |} in
  let w' := exec (Dialog.robustCopy "http://127.0.0.1:5000/survey/abc-123")
              (Sample.browser_on "/" NetFail, p) in
  clipboard (Dialog.board w'.2) = "before" ∧
  alerts w'.1 = [" Link copied!"].
Proof.
  intros p w'.
  destruct (robustCopy_outcomes (Sample.browser_on "/" NetFail) p
              "http://127.0.0.1:5000/survey/abc-123") as [_ H].
  destruct (H eq_refl) as (Hc & Ha & _). by split.
Defined.

(** ** What holds along any sequence of actions on the dashboard *)

Lemma sendEmail_stays (w : Browser * Share.Page) :
  navigations (exec Share.sendEmail w).1 = navigations w.1.
Proof.
  destruct w as [b p].
  unfold Share.sendEmail, Share.closeShareModal, Share.value_of. js_run.
Qed.

Lemma sends_cons (a : Dialog.Action) (actions : list Dialog.Action) :
  sends (a :: actions) =
    (if decide (a = Dialog.ClickSend) then 1 else 0) + sends actions.
Proof. unfold sends. rewrite filter_cons. by destruct (decide _). Qed.

Lemma robustCopy_steps (b : Browser) (p : Dialog.Page) :
  let w' := exec Dialog.copyFromModal (b, p) in
  Dialog.body_textareas w'.2 = Dialog.body_textareas p ∧
  navigations w'.1 = navigations b ∧
  sent w'.1 = sent b.
Proof.
  intros w'. subst w'.
  unfold Dialog.copyFromModal, Dialog.robustCopy, Dialog.fallbackCopy,
    execCommand.
  js_unfold_all. cbn.
  destruct (Share.modalLinkInput (Dialog.share p)) as [link|]; [|done].
  destruct (Dialog.navigator_clipboard p), (Dialog.isSecureContext p),
    (Dialog.writeText p); cbn;
    destruct (execCommand_copy (Dialog.board p)); cbn;
    by rewrite ?removelast_last.
Qed.

Lemma dashboard_step (a : Dialog.Action) (b : Browser) (p : Dialog.Page) :
  let w' := exec (Dialog.handler a) (b, p) in
  Dialog.body_textareas w'.2 = Dialog.body_textareas p ∧
  navigations w'.1 = navigations b ∧
  ∃ reqs, sent w'.1 = sent b ++ reqs ∧
          length reqs ≤ if decide (a = Dialog.ClickSend) then 1 else 0.
Proof.
  assert (Hquiet : ∀ w : Browser * Dialog.Page,
    Dialog.body_textareas w.2 = Dialog.body_textareas p →
    navigations w.1 = navigations b → sent w.1 = sent b →
    ∀ n, Dialog.body_textareas w.2 = Dialog.body_textareas p ∧
         navigations w.1 = navigations b ∧
         ∃ reqs, sent w.1 = sent b ++ reqs ∧ length reqs ≤ n).
  { intros w Hb Hn Hs n. split_and!; [done..|]. exists [].
    rewrite app_nil_r. split; [done | cbn; lia]. }
  intros w'. subst w'. destruct a; cbn [Dialog.handler].
  - by apply Hquiet.
  - apply Hquiet; unfold Dialog.openShareModal; js_unfold_all; cbn;
      by repeat (js_case; cbn).
  - by apply Hquiet.
  - unfold Dialog.sendEmail, Dialog.on_share. rewrite exec_zoom. cbn [fst snd].
    split_and!; [done | apply sendEmail_stays |].
    rewrite decide_True by done. apply (sendEmail_fetches (b, Dialog.share p)).
  - destruct (robustCopy_steps b p) as (Hb & Hn & Hs). by apply Hquiet.
  - apply Hquiet; unfold Dialog.closeShareModal, Share.closeShareModal;
      by js_unfold_all.
  - apply Hquiet; unfold Dialog.window_onclick, Dialog.closeShareModal,
      Share.closeShareModal; js_unfold_all; cbn; by repeat (js_case; cbn).
Qed.

(** X22: on the dashboard only Send talks to the server. Along any sequence
    of actions (toggling the template, opening and closing the share dialog,
    typing, copying, clicking the window or Send) the requests made never
    outnumber the clicks on Send, the browser never navigates, and no text
    area of a copy is left behind in the body. *)
Theorem dashboard_requests_come_from_send (b : Browser) (p : Dialog.Page)
  (actions : list Dialog.Action) :
  let w' := exec (dispatch (Dialog.handler <$> actions)) (b, p) in
  (∃ reqs, sent w'.1 = sent b ++ reqs ∧ length reqs ≤ sends actions) ∧
  navigations w'.1 = navigations b ∧
  Dialog.body_textareas w'.2 = Dialog.body_textareas p.
Proof.
  revert b p. induction actions as [|a actions IH]; intros b p w'.
  - split_and!; [|done..]. exists []. by rewrite app_nil_r.
  - subst w'. cbn [fmap list_fmap]. rewrite exec_dispatch_cons.
    destruct (dashboard_step a b p) as (Hbody & Hnav & reqs1 & Hsent & Hlen).
    destruct (exec (Dialog.handler a) (b, p)) as [b1 p1].
    destruct (IH b1 p1) as ((reqs2 & Hsent2 & Hlen2) & Hnav2 & Hbody2).
    cbn in Hbody, Hnav, Hsent. split_and!.
    + exists (reqs1 ++ reqs2).
      rewrite Hsent2, Hsent, (assoc_L _), length_app, sends_cons.
      split; [done | lia].
    + by rewrite Hnav2.
    + by rewrite Hbody2.
Qed.

Lemma dashboard_requests_come_from_send_witness :
  let p := {| Dialog.share := Sample.share "asha@example.org";
              Dialog.templatePreview := Some ∅; Dialog.whatsappBtn := None;
              Dialog.board := {| clipboard := ""; selection := "";
                                 execCommand_copy := Fails Js.TypeError |};
              Dialog.navigator_clipboard := false;
              Dialog.isSecureContext := false; Dialog.writeText := None;
              Dialog.body_textareas := []; Dialog.prompts := [] |} in
  let w' := exec (dispatch (Dialog.handler <$>
                    [Dialog.ToggleTemplate; Dialog.ClickCopy; Dialog.ClickClose]))
                 (Sample.browser_on "/" NetFail, p) in
  sent w'.1 = [] ∧ Dialog.body_textareas w'.2 = [].
Proof.
  intros p w'.
  destruct (dashboard_requests_come_from_send (Sample.browser_on "/" NetFail) p
              [Dialog.ToggleTemplate; Dialog.ClickCopy; Dialog.ClickClose])
    as ((reqs & Hsent & Hlen) & _ & Hbody).
  split; [|exact Hbody]. subst w'. rewrite Hsent.
  destruct reqs as [|r reqs]; [done|]. vm_compute in Hlen. lia.
Defined.

(** X23: the share dialog is closed by its button and by a click on its
    backdrop, and by no other click. After either, the dialog has the class
    [hidden] and keeps every other class, its link and its address; a click
    anywhere else in the window leaves the whole page as it was; and on a
    page without the dialog none of the three does anything. *)
Theorem dialog_closes_on_button_or_backdrop (b : Browser) (p : Dialog.Page) :
  let closed := exec Dialog.closeShareModal (b, p) in
  exec (Dialog.window_onclick true) (b, p) = closed ∧
  exec (Dialog.window_onclick false) (b, p) = (b, p) ∧
  (Share.shareModal (Dialog.share p) = None → closed = (b, p)) ∧
  (∀ classes, Share.shareModal (Dialog.share p) = Some classes →
     Share.shareModal (Dialog.share closed.2) = Some (classes ∪ {[ "hidden" ]})) ∧
  Share.modalLinkInput (Dialog.share closed.2) =
    Share.modalLinkInput (Dialog.share p) ∧
  Share.modalEmailInput (Dialog.share closed.2) =
    Share.modalEmailInput (Dialog.share p) ∧
  exec Dialog.closeShareModal closed = closed.
Proof.
  intros closed. subst closed.
  destruct p as [[modal link email button] preview whatsapp board api secure
                   write body prompts].
  unfold Dialog.window_onclick, Dialog.closeShareModal, Share.closeShareModal.
  js_unfold_all. cbn. unfold Dialog.set_share, Share.set_shareModal. cbn.
  destruct modal as [classes|]; cbn; split_and!; try done.
  - by intros ? [= <-].
  - do 4 f_equal. unfold classList_add. apply set_eq. intros c.
    rewrite !elem_of_union. tauto.
Qed.

Lemma dialog_closes_on_button_or_backdrop_witness :
  let p := {| Dialog.share := Sample.share "asha@example.org";
              Dialog.templatePreview := None; Dialog.whatsappBtn := None;
              Dialog.board := {| clipboard := ""; selection := "";
                                 execCommand_copy := Copies |};
              Dialog.navigator_clipboard := false;
              Dialog.isSecureContext := false; Dialog.writeText := None;
              Dialog.body_textareas := []; Dialog.prompts := [] |} in
  Share.shareModal
    (Dialog.share (exec (Dialog.window_onclick true)
                     (Sample.browser_on "/" NetFail, p)).2)
  = Some (∅ ∪ {[ "hidden" ]}).
Proof.
  intros p.
  destruct (dialog_closes_on_button_or_backdrop (Sample.browser_on "/" NetFail) p)
    as (Hclick & _ & _ & Hclosed & _).
  rewrite Hclick. exact (Hclosed ∅ eq_refl).
Defined.

(** ** The flash messages *)

Section flash.
Import Flash.

Lemma enqueue_last (due : nat) (cb : Callback) (q : list (nat * Callback)) :
  Forall (λ t, t.1 ≤ due) q → enqueue due cb q = q ++ [(due, cb)].
Proof.
  induction 1 as [|[d c] q Hd _ IH]; [done|]. cbn in *.
  rewrite decide_True by done. by rewrite IH.
Qed.

Lemma fade_all_fold (l : list nat) (p : Page) :
  foldl (λ p node, setTimeout (Remove node) 500 (set_message node fade p)) p l =
  {| messages := foldl (λ ms node, alter fade node ms) (messages p) l;
     now := now p;
     timers := foldl (λ q node, enqueue (now p + 500) (Remove node) q)
                     (timers p) l |}.
Proof.
  revert p. induction l as [|n l IH]; intros p; [by destruct p|].
  cbn. by rewrite IH.
Qed.

Lemma enqueue_fold (due : nat) (l : list nat) (q : list (nat * Callback)) :
  Forall (λ t, t.1 ≤ due) q →
  foldl (λ q node, enqueue due (Remove node) q) q l =
  q ++ ((λ node, (due, Remove node)) <$> l).
Proof.
  revert q. induction l as [|n l IH]; intros q Hq; cbn.
  - by rewrite app_nil_r.
  - rewrite enqueue_last by done. rewrite IH.
    + by rewrite <- app_assoc.
    + apply Forall_app. split; [done|]. by apply Forall_singleton.
Qed.

Lemma alter_fold (f : Message → Message) (l : list nat) (ms : list Message)
    (i : nat) :
  (∀ m, f (f m) = f m) →
  foldl (λ ms node, alter f node ms) ms l !! i =
  (if decide (i ∈ l) then f else id) <$> ms !! i.
Proof.
  intros Hf. revert ms. induction l as [|n l IH]; intros ms; cbn.
  - rewrite decide_False by apply not_elem_of_nil. by destruct (ms !! i).
  - rewrite IH. destruct (decide (i = n)) as [->|Hne].
    + rewrite list_lookup_alter_eq.
      rewrite (decide_True (P := n ∈ n :: l)) by left.
      destruct (ms !! n); cbn; [|by destruct (decide (n ∈ l))].
      destruct (decide (n ∈ l)); cbn; by rewrite ?Hf.
    + rewrite list_lookup_alter_ne by done.
      destruct (decide (i ∈ l)) as [Hin|Hin].
      * by rewrite decide_True by (by right).
      * rewrite decide_False; [done|]. rewrite elem_of_cons. tauto.
Qed.

Lemma removals_run (l : list nat) (q : Page) (due : nat) :
  timers q = (λ node, (due, Remove node)) <$> l → now q ≤ due →
  Nat.iter (length l) fire q =
  {| messages := foldl (λ ms node, alter detach node ms) (messages q) l;
     now := if l is [] then now q else due; timers := [] |}.
Proof.
  revert q. induction l as [|n l IH]; intros q Hq Hnow.
  - destruct q; cbn in *; by subst.
  - cbn [length]. rewrite Nat.iter_succ_r.
    assert (Hfire : fire q =
              {| messages := alter detach n (messages q); now := due;
                 timers := (λ node, (due, Remove node)) <$> l |}).
    { unfold fire. rewrite Hq. cbn. unfold remove, set_message. cbn.
      f_equal. lia. }
    rewrite Hfire, IH; cbn; [|done|done]. f_equal. by destruct l.
Qed.

Lemma in_querySelectorAll (p : Page) (i : nat) :
  i ∈ querySelectorAll p ↔ attached <$> messages p !! i = Some true.
Proof.
  unfold querySelectorAll. rewrite list_elem_of_filter, elem_of_seq.
  split; [tauto|]. intros H. split; [done|]. split; [lia|]. cbn.
  apply lookup_lt_is_Some. by destruct (messages p !! i).
Qed.

End flash.

(** X24: the flash messages of the dashboard. Two seconds after the page
    has loaded, every flash message that is in the document gets opacity 0
    with a half-second transition and one removal timer due half a second
    later; once these timers have run, each of those messages is out of the
    document and no timer is pending. A message that was not in the document
    is never touched. *)
Theorem flash_messages_fade_then_leave (ms : list Flash.Message) (t : nat) :
  let p := Flash.DOMContentLoaded
             {| Flash.messages := ms; Flash.now := t; Flash.timers := [] |} in
  let nodes := Flash.querySelectorAll p in
  let faded := Flash.fire p in
  let final := Nat.iter (length nodes) Flash.fire faded in
  Flash.timers p = [(t + 2000, Flash.FadeAll)] ∧
  Flash.messages faded =
    (λ m, if Flash.attached m then Flash.fade m else m) <$> ms ∧
  Flash.now faded = t + 2000 ∧
  Flash.timers faded = (λ node, (t + 2500, Flash.Remove node)) <$> nodes ∧
  Flash.messages final =
    (λ m, if Flash.attached m then Flash.detach (Flash.fade m) else m) <$> ms ∧
  Flash.timers final = [].
Proof.
  intros p nodes faded final.
  assert (Hfaded : faded =
            {| Flash.messages :=
                 (λ m, if Flash.attached m then Flash.fade m else m) <$> ms;
               Flash.now := t + 2000;
               Flash.timers := (λ node, (t + 2500, Flash.Remove node)) <$> nodes |}).
  { subst faded nodes p. unfold Flash.fire, Flash.DOMContentLoaded, Flash.setTimeout.
    cbn [Flash.timers Flash.enqueue Flash.messages Flash.now].
    unfold Flash.fade_all. rewrite fade_all_fold.
    cbn [Flash.timers Flash.messages Flash.now].
    rewrite enqueue_fold by constructor. cbn [app].
    replace (t `max` (t + 2000) + 500) with (t + 2500) by lia.
    replace (t `max` (t + 2000)) with (t + 2000) by lia.
    f_equal. apply list_eq. intros i.
    rewrite alter_fold by done. rewrite list_lookup_fmap.
    destruct (decide _) as [Hin|Hin]; rewrite in_querySelectorAll in Hin;
      cbn in Hin; destruct (ms !! i) as [m|]; cbn in *; try done.
    - injection Hin as ->. done.
    - destruct (Flash.attached m); [by destruct Hin|done]. }
  assert (Hfinal : final =
            {| Flash.messages :=
                 (λ m, if Flash.attached m then Flash.detach (Flash.fade m) else m)
                   <$> ms;
               Flash.now := if nodes is [] then t + 2000 else t + 2500;
               Flash.timers := [] |}).
  { subst final. rewrite (removals_run nodes faded (t + 2500));
      [|by rewrite Hfaded|rewrite Hfaded; cbn; lia].
    rewrite Hfaded. cbn [Flash.messages Flash.now]. f_equal.
    apply list_eq. intros i.
    rewrite alter_fold by done. rewrite !list_lookup_fmap.
    destruct (decide _) as [Hin|Hin]; unfold nodes in Hin;
      rewrite in_querySelectorAll in Hin;
      cbn in Hin; destruct (ms !! i) as [m|]; cbn in *; try done.
    - injection Hin as ->. done.
    - destruct (Flash.attached m); [by destruct Hin|done]. }
  rewrite Hfinal, Hfaded. by split_and!.
Qed.

Lemma flash_messages_fade_then_leave_witness :
  let shown := {| Flash.opacity := "1"; Flash.transition := "";
                  Flash.attached := true |} in
  let gone := {| Flash.opacity := "1"; Flash.transition := "";
                 Flash.attached := false |} in
  let p := Flash.DOMContentLoaded
             {| Flash.messages := [shown; gone; shown]; Flash.now := 0;
                Flash.timers := [] |} in
  Flash.timers (Flash.fire p) = [(2500, Flash.Remove 0); (2500, Flash.Remove 2)] ∧
  Flash.messages (Nat.iter 2 Flash.fire (Flash.fire p)) =
    [ {| Flash.opacity := "0"; Flash.transition := "opacity 0.5s ease";
         Flash.attached := false |};
      gone;
      {| Flash.opacity := "0"; Flash.transition := "opacity 0.5s ease";
         Flash.attached := false |} ].
Proof.
  intros shown gone p.
  destruct (flash_messages_fade_then_leave [shown; gone; shown] 0)
    as (_ & _ & _ & Htimers & Hfinal & _).
  split; [exact Htimers|exact Hfinal].
Defined.
